(** * scripts/drop_tables.py: dropping tables and views through the Trino API

    A shallow embedding of [scripts/drop_tables.py].  The script talks to
    three things outside itself: the [logging] module, the Trino DB-API
    driver and the terminal.  Every call that leaves the script is recorded
    as an [event] in a chronological trace; what the outside answers is
    read from a [World].  The functions of the script become computations
    in a small state-and-exception monad over that trace and the one
    mutable object of the script, the [DuneTrinoConnection] of [main]. *)

From Stdlib Require Import String Ascii List ZArith Bool Arith Lia DecimalString.
Import ListNotations.
Open Scope string_scope.

Set Implicit Arguments.

(** ** Python strings

    A [str] is modelled as a Rocq [string] whose characters stand for the
    code points below 256.  Log messages that contain other glyphs keep
    them in their UTF-8 encoding; no decision of the script depends on
    them. *)

Module PyStr.

(** The double-quote character (code point 34). *)
Definition dquote : ascii := "034"%char.

(** [c in s] for a one-character [c]. *)
Fixpoint contains_char (c : ascii) (s : string) : bool :=
  match s with
  | EmptyString => false
  | String d s' => Ascii.eqb c d || contains_char c s'
  end.

(** [s * n]. *)
Fixpoint str_mul (s : string) (n : nat) : string :=
  match n with
  | O => ""
  | S n' => s ++ str_mul s n'
  end.

(** [str(n)] for a non-negative integer. *)
Definition str_of_nat (n : nat) : string :=
  NilZero.string_of_uint (Nat.to_uint n).

(** [str.isspace] on one code point below 256: the characters that
    [str.strip()] removes. *)
Definition isspace (c : ascii) : bool :=
  let n := nat_of_ascii c in
  (((9 <=? n) && (n <=? 13)) || ((28 <=? n) && (n <=? 32))
   || (n =? 133) || (n =? 160))%nat.

Fixpoint lstrip (s : string) : string :=
  match s with
  | EmptyString => EmptyString
  | String c s' => if isspace c then lstrip s' else s
  end.

Fixpoint rstrip (s : string) : string :=
  match s with
  | EmptyString => EmptyString
  | String c s' =>
      match rstrip s' with
      | EmptyString => if isspace c then EmptyString else String c EmptyString
      | r => String c r
      end
  end.

(** [s.strip()]. *)
Definition strip (s : string) : string := rstrip (lstrip s).

(** [str.lower] on one code point below 256: [A-Z] and the accented
    capitals [U+00C0 .. U+00DE] other than the multiplication sign. *)
Definition lower_char (c : ascii) : ascii :=
  let n := nat_of_ascii c in
  if (((65 <=? n) && (n <=? 90))
      || ((192 <=? n) && (n <=? 222) && negb (n =? 215)))%nat
  then ascii_of_nat (n + 32)
  else c.

(** [s.lower()]. *)
Fixpoint lower (s : string) : string :=
  match s with
  | EmptyString => EmptyString
  | String c s' => String (lower_char c) (lower s')
  end.

(** Truth value of a [str]: the empty string is false. *)
Definition truthy_str (s : string) : bool :=
  match s with
  | EmptyString => false
  | String _ _ => true
  end.

(** Truth value of an [Optional[str]]: [None] and [''] are false. *)
Definition truthy (o : option string) : bool :=
  match o with
  | None => false
  | Some s => truthy_str s
  end.

(** How an f-string renders an [Optional[str]]. *)
Definition fmt (o : option string) : string :=
  match o with
  | None => "None"
  | Some s => s
  end.

End PyStr.
Import PyStr.

(** ** Exceptions, events and the outside world *)

Inductive exn : Type :=
| ValueError (msg : string)
| DriverError (msg : string)      (* any [Exception] raised by the driver *)
| EOFError
| KeyboardInterrupt.

(** [str(e)], as rendered by [{e}] in an f-string. *)
Definition exn_str (e : exn) : string :=
  match e with
  | ValueError msg => msg
  | DriverError msg => msg
  | EOFError => ""
  | KeyboardInterrupt => ""
  end.

(** [isinstance(e, Exception)]: [KeyboardInterrupt] derives from
    [BaseException] only. *)
Definition is_Exception (e : exn) : bool :=
  match e with
  | KeyboardInterrupt => false
  | _ => true
  end.

Inductive level : Type := DEBUG | INFO | WARNING | ERROR.

(** A statement handed to [cursor.execute]: the text and its parameters. *)
Definition statement : Type := string * list string.

Inductive event : Type :=
| Log (lvl : level) (msg : string)          (* logger.debug/info/warning/error *)
| SetLevel (logger : string) (lvl : level)  (* <logger>.setLevel *)
| Connect (host : string) (port : Z) (catalog api_key : string)
                                            (* trino.dbapi.connect *)
| CursorOpen                                (* connection.cursor() *)
| Execute (sql : string) (params : list string)   (* cursor.execute *)
| CursorClose                               (* cursor.close() *)
| Input (prompt : string)                   (* input(prompt) *)
| ConnClose.                                (* connection.close() *)

Definition trace : Type := list event.

(** The statements sent to the server so far, oldest first. *)
Fixpoint executed (tr : trace) : list statement :=
  match tr with
  | [] => []
  | Execute sql params :: tr' => (sql, params) :: executed tr'
  | _ :: tr' => executed tr'
  end.

(** The prompts shown on the terminal so far. *)
Fixpoint prompts (tr : trace) : list string :=
  match tr with
  | [] => []
  | Input p :: tr' => p :: prompts tr'
  | _ :: tr' => prompts tr'
  end.

(** How often [trino.dbapi.connect] was called. *)
Fixpoint connects (tr : trace) : nat :=
  match tr with
  | [] => 0
  | Connect _ _ _ _ :: tr' => S (connects tr')
  | _ :: tr' => connects tr'
  end.

(** A row of [information_schema.tables] as selected by the script:
    [table_schema, table_name, table_type]. *)
Definition row : Type := string * string * string.

(** What [input()] does: hand over a line, or raise. *)
Inductive input_result : Type :=
| Line (s : string)
| Eof
| Interrupt.

(** The answers of the outside world.  The server may answer a statement
    differently depending on the statements it has already received. *)
Record World : Type := {
  getenv : string -> option string;
  (* [trino.dbapi.connect] with this API key: [Some msg] when it raises *)
  dbapi_connect : string -> option string;
  (* [cursor.execute]: the rows of the result, or the message of the
     exception it raises *)
  server : list statement -> statement -> string + list row;
  stdin : input_result
}.

(** ** The connection objects *)

(** A [trino.dbapi.Connection], known by what it was opened with. *)
Inductive Connection : Type :=
| TrinoConnection (host : string) (port : Z) (catalog api_key : string).

(** An instance of the class [DuneTrinoConnection]. *)
Record DuneTrinoConnection : Type := {
  self_api_key : string;
  self_host : string;
  self_port : Z;
  self_catalog : string;
  self_connection : option Connection
}.

(** ** The monad: state threaded through, and Python exceptions

    The state is the trace written so far and the variable [dune_conn] of
    [main], which its [finally] block reads. *)

Record state : Type := {
  events : trace;
  dune_conn : option DuneTrinoConnection
}.

Definition initial : state := {| events := []; dune_conn := None |}.

Inductive result (A : Type) : Type :=
| Ok (a : A)
| Raise (e : exn).
Arguments Raise {A} e.

Definition M (A : Type) : Type := state -> result A * state.

Definition ret {A} (a : A) : M A := fun st => (Ok a, st).

Definition raise {A} (e : exn) : M A := fun st => (Raise e, st).

Definition bind {A B} (m : M A) (k : A -> M B) : M B :=
  fun st =>
    match m st with
    | (Ok a, st') => k a st'
    | (Raise e, st') => (Raise e, st')
    end.

Definition emit (e : event) : M unit :=
  fun st =>
    (Ok tt, {| events := (events st ++ [e])%list; dune_conn := dune_conn st |}).

Definition get_dune_conn : M (option DuneTrinoConnection) :=
  fun st => (Ok (dune_conn st), st).

Definition set_dune_conn (c : option DuneTrinoConnection) : M unit :=
  fun st => (Ok tt, {| events := events st; dune_conn := c |}).

(** [try: m  except <the classes selected by handles> as e: h e]. *)
Definition try_catch {A} (handles : exn -> bool) (m : M A) (h : exn -> M A)
  : M A :=
  fun st =>
    match m st with
    | (Ok a, st') => (Ok a, st')
    | (Raise e, st') => if handles e then h e st' else (Raise e, st')
    end.

(** [try: m  except Exception as e: h e]. *)
Definition try_except {A} (m : M A) (h : exn -> M A) : M A :=
  try_catch is_Exception m h.

(** [try: m  finally: f]; an exception of [f] replaces the outcome of [m]. *)
Definition try_finally {A} (m : M A) (f : M unit) : M A :=
  fun st =>
    match m st with
    | (r, st') =>
        match f st' with
        | (Ok _, st'') => (r, st'')
        | (Raise e, st'') => (Raise e, st'')
        end
    end.

Declare Scope py_scope.
Delimit Scope py_scope with py.
Notation "x <- m ;; k" := (bind m (fun x => k))
  (at level 61, m at next level, right associativity) : py_scope.
Notation "m ;; k" := (bind m (fun _ => k))
  (at level 61, right associativity) : py_scope.
Open Scope py_scope.

Definition log (lvl : level) (msg : string) : M unit := emit (Log lvl msg).

(** The value and the trace of a run. *)
Definition value {A} (r : result A * state) : result A := fst r.
Definition trace_of {A} (r : result A * state) : trace := events (snd r).

(** ** The DB-API driver, as the script uses it

    Of the driver's calls, [trino.dbapi.connect] and [cursor.execute] talk
    to the server and may raise; [connection.cursor()], [cursor.close()]
    and [connection.close()] are taken to return. *)

(** [connection.cursor()]. *)
Definition cursor_open (connection : Connection) : M unit := emit CursorOpen.

(** [cursor.close()]. *)
Definition cursor_close : M unit := emit CursorClose.

(** [cursor.execute(sql, params)]: the statement goes to the server, which
    answers from what it has received before.  The rows of the answer stay
    in the cursor for [fetchall]. *)
Definition cursor_execute (w : World) (sql : string) (params : list string)
  : M (list row) :=
  fun st =>
    let st' := {| events := (events st ++ [Execute sql params])%list;
                  dune_conn := dune_conn st |} in
    match server w (executed (events st)) (sql, params) with
    | inr rows => (Ok rows, st')
    | inl msg => (Raise (DriverError msg), st')
    end.

(** ** The table dicts built by the listing functions *)

Record table : Type := {
  t_schema : string;     (* table["schema"] *)
  t_name : string;       (* table["name"] *)
  t_type : string        (* table["type"] *)
}.

(** The loop that turns the fetched rows into dicts. *)
Definition tables_of_rows (results : list row) : list table :=
  map (fun r : row =>
         let '(schema_name, table_name, table_type) := r in
         {| t_schema := schema_name; t_name := table_name;
            t_type := table_type |})
      results.

(** ** The three listing functions *)

Definition query_by_pattern : string := "
        select
            table_schema
            , table_name
            , table_type
        from
            dune.information_schema.tables
        where
            table_catalog = ?
            and table_schema like ?
        order by
            table_schema
            , table_name
    ".

Definition query_by_schema : string := "
        select
            table_schema
            , table_name
            , table_type
        from
            dune.information_schema.tables
        where
            table_catalog = ?
            and table_schema = ?
        order by
            table_schema
            , table_name
    ".

Definition query_specific_table : string := "
        select
            table_schema
            , table_name
            , table_type
        from
            dune.information_schema.tables
        where
            table_catalog = ?
            and table_schema = ?
            and table_name = ?
    ".

Definition list_tables_by_pattern (w : World) (connection : Connection)
    (schema_pattern catalog : string) : M (list table) :=
  cursor_open connection ;;
  let query := query_by_pattern in
  log INFO ("Querying tables matching schema pattern: " ++ schema_pattern) ;;
  log DEBUG ("Query: " ++ query) ;;
  log DEBUG ("Parameters: catalog=" ++ catalog ++ ", schema_pattern="
               ++ schema_pattern) ;;
  try_finally
    (try_except
       (results <- cursor_execute w query [catalog; schema_pattern] ;;
        ret (tables_of_rows results))
       (fun e => log ERROR ("Error querying tables: " ++ exn_str e) ;;
                 raise e))
    cursor_close.

Definition list_tables_by_schema (w : World) (connection : Connection)
    (schema catalog : string) : M (list table) :=
  cursor_open connection ;;
  let query := query_by_schema in
  log INFO ("Querying tables in schema: " ++ schema) ;;
  log DEBUG ("Query: " ++ query) ;;
  log DEBUG ("Parameters: catalog=" ++ catalog ++ ", schema=" ++ schema) ;;
  try_finally
    (try_except
       (results <- cursor_execute w query [catalog; schema] ;;
        ret (tables_of_rows results))
       (fun e => log ERROR ("Error querying tables: " ++ exn_str e) ;;
                 raise e))
    cursor_close.

Definition list_specific_table (w : World) (connection : Connection)
    (schema table_name catalog : string) : M (list table) :=
  cursor_open connection ;;
  let query := query_specific_table in
  log INFO ("Querying table: " ++ catalog ++ "." ++ schema ++ "."
              ++ table_name) ;;
  log DEBUG ("Query: " ++ query) ;;
  log DEBUG ("Parameters: catalog=" ++ catalog ++ ", schema=" ++ schema
               ++ ", table_name=" ++ table_name) ;;
  try_finally
    (try_except
       (results <- cursor_execute w query [catalog; schema; table_name] ;;
        ret (tables_of_rows results))
       (fun e => log ERROR ("Error querying table: " ++ exn_str e) ;;
                 raise e))
    cursor_close.

(** ** quote_identifier *)

Definition quote_identifier (identifier : string) : result string :=
  if contains_char dquote identifier
  then Raise (ValueError
                ("Invalid identifier: contains double quotes: " ++ identifier))
  else Ok (String dquote identifier ++ String dquote "").

(** ** drop_table_or_view *)

(** The body of the [try] block at the head of [drop_table_or_view]: the
    three identifiers are quoted in the order catalog, schema, table and
    the statement is assembled. *)
Definition drop_statement (catalog schema table_name table_type : string)
  : result string :=
  match quote_identifier catalog with
  | Raise e => Raise e
  | Ok quoted_catalog =>
      match quote_identifier schema with
      | Raise e => Raise e
      | Ok quoted_schema =>
          match quote_identifier table_name with
          | Raise e => Raise e
          | Ok quoted_table =>
              if table_type =? "VIEW"
              then Ok ("drop view if exists " ++ quoted_catalog ++ "."
                         ++ quoted_schema ++ "." ++ quoted_table)
              else Ok ("drop table if exists " ++ quoted_catalog ++ "."
                         ++ quoted_schema ++ "." ++ quoted_table)
          end
      end
  end.

Definition drop_table_or_view (w : World) (connection : Connection)
    (schema table_name table_type catalog : string) (dry_run : bool)
  : M bool :=
  match drop_statement catalog schema table_name table_type with
  | Raise (ValueError _ as e) =>
      log ERROR ("✗ Invalid identifier for " ++ schema ++ "." ++ table_name
                   ++ ": " ++ exn_str e) ;;
      ret false
  | Raise e => raise e
  | Ok stmt =>
      log INFO ("DROP: " ++ stmt) ;;
      if dry_run then
        log DEBUG "Dry run mode - command not executed" ;;
        ret true
      else
        cursor_open connection ;;
        try_finally
          (try_except
             (cursor_execute w stmt [] ;;
              log INFO ("✓ Successfully dropped: " ++ schema ++ "."
                          ++ table_name) ;;
              ret true)
             (fun e =>
                log ERROR ("✗ Error dropping " ++ schema ++ "." ++ table_name
                             ++ ": " ++ exn_str e) ;;
                ret false))
          cursor_close
  end.

(** ** drop_tables *)

(** The summary dict, with its keys ["total"], ["success"], ["failed"]. *)
Record summary : Type := {
  total : nat;
  success : nat;
  failed : nat
}.

(** The [for table in tables] loop, with its two counters. *)
Fixpoint drop_loop (w : World) (connection : Connection)
    (tables : list table) (catalog : string) (dry_run : bool)
    (success_count failed_count : nat) : M (nat * nat) :=
  match tables with
  | [] => ret (success_count, failed_count)
  | table :: rest =>
      ok <- drop_table_or_view w connection (t_schema table) (t_name table)
              (t_type table) catalog dry_run ;;
      if ok
      then drop_loop w connection rest catalog dry_run
             (success_count + 1) failed_count
      else drop_loop w connection rest catalog dry_run
             success_count (failed_count + 1)
  end.

Definition drop_tables (w : World) (connection : Connection)
    (tables : list table) (catalog : string) (dry_run : bool) : M summary :=
  match tables with
  | [] =>
      log INFO "No tables found to drop." ;;
      ret {| total := 0; success := 0; failed := 0 |}
  | _ :: _ =>
      log INFO (str_mul "=" 80) ;;
      log INFO ("Preparing to drop " ++ str_of_nat (length tables)
                  ++ " table(s)/view(s)") ;;
      log INFO (str_mul "=" 80) ;;
      counts <- drop_loop w connection tables catalog dry_run 0 0 ;;
      let '(success_count, failed_count) := counts in
      log INFO (str_mul "=" 80) ;;
      log INFO ("Drop summary: " ++ str_of_nat success_count
                  ++ " successful, " ++ str_of_nat failed_count ++ " failed") ;;
      log INFO (str_mul "=" 80) ;;
      ret {| total := length tables; success := success_count;
             failed := failed_count |}
  end.

(** ** class DuneTrinoConnection *)

(** [a or b] on two [Optional[str]]. *)
Definition or_else (a b : option string) : option string :=
  if truthy a then a else b.

(** [DuneTrinoConnection(api_key=api_key)], with the defaults of
    [__init__] for host, port and catalog. *)
Definition DuneTrinoConnection_init (w : World) (api_key : option string)
  : M DuneTrinoConnection :=
  let host := "trino.api.dune.com" in
  let port := 443%Z in
  let catalog := "dune" in
  let key := or_else api_key (getenv w "DUNE_API_KEY") in
  if negb (truthy key) then
    raise (ValueError
      "DUNE_API_KEY environment variable is required or pass api_key parameter")
  else
    log INFO ("Initialized Dune Trino connection config (host=" ++ host
                ++ ", catalog=" ++ catalog ++ ")") ;;
    ret {| self_api_key := fmt key; self_host := host; self_port := port;
           self_catalog := catalog; self_connection := None |}.

(** [self.connect()]: on success the connection is stored in the object
    (the variable [dune_conn] of [main] refers to it) and returned. *)
Definition connect (w : World) (self : DuneTrinoConnection) : M Connection :=
  log INFO "Connecting to Dune Trino API..." ;;
  emit (Connect (self_host self) (self_port self) (self_catalog self)
          (self_api_key self)) ;;
  match dbapi_connect w (self_api_key self) with
  | Some msg => raise (DriverError msg)
  | None =>
      let c := TrinoConnection (self_host self) (self_port self)
                 (self_catalog self) (self_api_key self) in
      set_dune_conn
        (Some {| self_api_key := self_api_key self;
                 self_host := self_host self;
                 self_port := self_port self;
                 self_catalog := self_catalog self;
                 self_connection := Some c |}) ;;
      log INFO "Successfully connected to Dune Trino API" ;;
      ret c
  end.

(** [self.close()]. *)
Definition close (self : DuneTrinoConnection) : M unit :=
  match self_connection self with
  | Some _ =>
      emit ConnClose ;;
      log INFO "Connection closed"
  | None => ret tt
  end.

(** ** main *)

Inductive target : Type := dev | prod.

(** The namespace returned by [parser.parse_args()]. *)
Record Args : Type := {
  args_target : target;            (* --target, default dev *)
  args_schema : option string;     (* --schema, default None *)
  args_table : option string;      (* --table, default None *)
  args_execute : bool;             (* --execute *)
  args_api_key : option string;    (* --api-key, default None *)
  args_verbose : bool              (* --verbose / -v *)
}.

(** The preview loop of the production warning:
    [for i, table in enumerate(tables[:preview_count])]. *)
Fixpoint preview_loop (i : nat) (tables : list table) : M unit :=
  match tables with
  | [] => ret tt
  | table :: rest =>
      log WARNING ("  " ++ str_of_nat (i + 1) ++ ". " ++ t_schema table ++ "."
                     ++ t_name table ++ " (" ++ t_type table ++ ")") ;;
      preview_loop (i + 1) rest
  end.

(** [input(prompt)]. *)
Definition input (w : World) (prompt : string) : M string :=
  emit (Input prompt) ;;
  match stdin w with
  | Line s => ret s
  | Eof => raise EOFError
  | Interrupt => raise KeyboardInterrupt
  end.

(** The production safety check of [main], entered when
    [is_prod and not dry_run and tables] holds.  [Some code] stands for
    [return code], [None] for falling through to the drops. *)
Definition confirm_production (w : World) (tables : list table)
    (schema_or_pattern : string) : M (option Z) :=
  log WARNING "" ;;
  log WARNING (str_mul "=" 80) ;;
  log WARNING "⚠️  PRODUCTION DROP WARNING ⚠️" ;;
  log WARNING (str_mul "=" 80) ;;
  log WARNING ("You are about to DROP " ++ str_of_nat (length tables)
                 ++ " table(s)/view(s) from PRODUCTION schema(s)!") ;;
  log WARNING ("Schema: " ++ schema_or_pattern) ;;
  log WARNING (str_mul "=" 80) ;;
  log WARNING "" ;;
  let preview_count := Nat.min 10 (length tables) in
  log WARNING ("Preview of tables to be dropped (showing "
                 ++ str_of_nat preview_count ++ " of "
                 ++ str_of_nat (length tables) ++ "):") ;;
  preview_loop 0 (firstn preview_count tables) ;;
  (if (preview_count <? length tables)%nat
   then log WARNING ("  ... and "
                       ++ str_of_nat (length tables - preview_count)
                       ++ " more table(s)")
   else ret tt) ;;
  log WARNING "" ;;
  try_catch
    (fun e => match e with
              | KeyboardInterrupt | EOFError => true
              | _ => false
              end)
    (line <- input w "Are you sure you want to proceed? Type 'yes' to confirm: " ;;
     let response := lower (strip line) in
     if negb (response =? "yes") then
       log INFO "Operation cancelled by user." ;;
       ret (Some 0%Z)
     else
       log INFO "Confirmed. Proceeding with drop operations..." ;;
       ret None)
    (fun _ =>
       log INFO "
Operation cancelled by user." ;;
       ret (Some 0%Z)).

Definition target_label (is_prod : bool) : string :=
  if is_prod then "PROD" else "DEV".

(** The end of the [try] block of [main], once [tables] is known: the
    production safety check, the drops and the closing dry-run notice. *)
Definition drop_listed (w : World) (connection : Connection)
    (is_prod dry_run : bool) (schema_or_pattern : string)
    (tables : list table) : M Z :=
  confirmed <-
    (if is_prod && negb dry_run && negb (length tables =? 0)%nat
     then confirm_production w tables schema_or_pattern
     else ret None) ;;
  match confirmed with
  | Some code => ret code
  | None =>
      drop_tables w connection tables "dune" dry_run ;;
      (if dry_run then
         log INFO "" ;;
         log INFO (str_mul "=" 80) ;;
         log INFO "DRY RUN COMPLETE" ;;
         log INFO "Above are the DROP commands that would be executed." ;;
         log INFO "Use --execute flag to actually drop the tables/views." ;;
         log INFO (str_mul "=" 80)
       else ret tt) ;;
      ret 0%Z
  end.

(** The body of the [try] block of [main]. *)
Definition main_try (w : World) (args : Args) (is_prod dry_run : bool)
    (schema_or_pattern : string) (use_pattern : bool) : M Z :=
  new_conn <- DuneTrinoConnection_init w (args_api_key args) ;;
  set_dune_conn (Some new_conn) ;;
  connection <- connect w new_conn ;;
  if truthy (args_table args) then
    tables <- list_specific_table w connection (fmt (args_schema args))
                (fmt (args_table args)) "dune" ;;
    match tables with
    | [] =>
        log WARNING ("Table '" ++ fmt (args_table args)
                       ++ "' not found in schema '" ++ fmt (args_schema args)
                       ++ "'") ;;
        ret 0%Z
    | _ :: _ =>
        drop_listed w connection is_prod dry_run schema_or_pattern tables
    end
  else if use_pattern then
    tables <- list_tables_by_pattern w connection schema_or_pattern "dune" ;;
    drop_listed w connection is_prod dry_run schema_or_pattern tables
  else
    tables <- list_tables_by_schema w connection schema_or_pattern "dune" ;;
    drop_listed w connection is_prod dry_run schema_or_pattern tables.

(** [main()], after [parser.parse_args()] has produced [args]. *)
Definition main (w : World) (args : Args) : M Z :=
  let dune_team_name :=
    match getenv w "DUNE_TEAM_NAME" with
    | Some v => v
    | None => "dune"
    end in
  let default_dev_pattern := dune_team_name ++ "__tmp_%" in
  let default_prod_schema := dune_team_name in
  (if args_verbose args then
     emit (SetLevel "root" DEBUG) ;;
     emit (SetLevel "__main__" DEBUG)
   else ret tt) ;;
  let dry_run := negb (args_execute args) in
  let is_prod := match args_target args with prod => true | dev => false end in
  let '(schema_or_pattern, use_pattern) :=
    if truthy (args_schema args) then
      (fmt (args_schema args), negb (truthy (args_table args)))
    else
      match args_target args with
      | prod => (default_prod_schema, false)
      | dev => (default_dev_pattern, true)
      end in
  if truthy (args_table args) && negb (truthy (args_schema args)) then
    log ERROR "Error: --table requires --schema to be specified" ;;
    ret 1%Z
  else if is_prod
          && (negb (truthy (args_schema args))
              || negb (truthy (args_table args))) then
    log ERROR (str_mul "=" 80) ;;
    log ERROR "Error: Production drops require BOTH --schema AND --table" ;;
    log ERROR (str_mul "=" 80) ;;
    log ERROR "For safety, you can only drop one specific table/view at a time in prod." ;;
    log ERROR "You must specify:" ;;
    log ERROR "  --schema SCHEMA_NAME" ;;
    log ERROR "  --table TABLE_NAME" ;;
    log ERROR "" ;;
    log ERROR "Example:" ;;
    log ERROR ("  python scripts/drop_tables.py --target prod --schema "
                 ++ default_prod_schema ++ " --table my_table --execute") ;;
    log ERROR (str_mul "=" 80) ;;
    ret 1%Z
  else
    (if dry_run then
       log WARNING (str_mul "=" 80) ;;
       log WARNING "DRY RUN MODE - No operations will be executed" ;;
       log WARNING "To execute operations, add the --execute flag" ;;
       log WARNING (str_mul "=" 80)
     else ret tt) ;;
    (if truthy (args_table args) then
       log INFO ("Target [" ++ target_label is_prod ++ "]: Specific table '"
                   ++ fmt (args_table args) ++ "' in schema '"
                   ++ fmt (args_schema args) ++ "'")
     else if use_pattern then
       log INFO ("Target [" ++ target_label is_prod
                   ++ "]: All tables matching schema pattern '"
                   ++ schema_or_pattern ++ "'")
     else
       log INFO ("Target [" ++ target_label is_prod
                   ++ "]: All tables in schema '" ++ schema_or_pattern ++ "'")) ;;
    set_dune_conn None ;;
    try_finally
      (try_except
         (main_try w args is_prod dry_run schema_or_pattern use_pattern)
         (fun e =>
            log ERROR ("Failed to complete operation: " ++ exn_str e) ;;
            ret 1%Z))
      (c <- get_dune_conn ;;
       match c with
       | Some self => close self
       | None => ret tt
       end).

(** A run of [main] from the state in which the process starts. *)
Definition run_main (w : World) (args : Args) : result Z * state :=
  main w args initial.

(** * The vocabulary of the properties

    The definitions below belong to the statements and proofs, not to the
    script. *)

(** ** Identifiers and statements *)

(** The identifier between two double quotes. *)
Definition quoted (identifier : string) : string :=
  String dquote (identifier ++ String dquote EmptyString).

(** None of the three identifiers holds a double quote. *)
Definition valid_identifiers (catalog schema table_name : string) : bool :=
  negb (contains_char dquote catalog)
  && negb (contains_char dquote schema)
  && negb (contains_char dquote table_name).

(** ** One call of drop_table_or_view, read off the server's answers *)

(** What the call sends to the server. *)
Definition sent (schema table_name table_type catalog : string)
    (dry_run : bool) : list statement :=
  match drop_statement catalog schema table_name table_type with
  | Ok stmt => if dry_run then [] else [(stmt, [])]
  | Raise _ => []
  end.

(** What the call returns when the server has received [hist] so far. *)
Definition outcome (w : World)
    (schema table_name table_type catalog : string) (dry_run : bool)
    (hist : list statement) : bool :=
  match drop_statement catalog schema table_name table_type with
  | Ok stmt =>
      if dry_run then true
      else match server w hist (stmt, []) with
           | inr _ => true
           | inl _ => false
           end
  | Raise _ => false
  end.

(** The first thing the call logs: the statement, or the identifier it
    rejects. *)
Definition attempt_log (schema table_name table_type catalog : string)
  : event :=
  match drop_statement catalog schema table_name table_type with
  | Ok stmt => Log INFO ("DROP: " ++ stmt)
  | Raise e =>
      Log ERROR ("✗ Invalid identifier for " ++ schema ++ "." ++ table_name
                   ++ ": " ++ exn_str e)
  end.

(** ** The loop of drop_tables *)

(** How many entries of [l] are [b]. *)
Definition count (b : bool) (l : list bool) : nat :=
  length (filter (Bool.eqb b) l).

(** What the call for [t] sends to the server. *)
Definition sent_for (catalog : string) (dry_run : bool) (t : table)
  : list statement :=
  sent (t_schema t) (t_name t) (t_type t) catalog dry_run.

(** What the call for [t] logs first. *)
Definition attempt_of (catalog : string) (t : table) : event :=
  attempt_log (t_schema t) (t_name t) (t_type t) catalog.

(** What the calls for [tables], made one after the other, return when
    the server has received [hist] before the first of them. *)
Fixpoint outcomes (w : World) (catalog : string) (dry_run : bool)
    (hist : list statement) (tables : list table) : list bool :=
  match tables with
  | [] => []
  | t :: rest =>
      outcome w (t_schema t) (t_name t) (t_type t) catalog dry_run hist
        :: outcomes w catalog dry_run (hist ++ sent_for catalog dry_run t) rest
  end.

(** ** Growing traces *)

(** [st'] continues [st]: the trace has grown by [evs] and [dune_conn] is
    the same object. *)
Definition grows (st : state) (evs : trace) (st' : state) : Prop :=
  events st' = (events st ++ evs)%list /\ dune_conn st' = dune_conn st.

(** ** What a run shows to the outside

    Of a trace, three things matter to the server and to the user: the
    statements executed, the prompts shown and the connections opened. *)

Definition obs : Type := (list statement * list string * nat)%type.

Definition observe (tr : trace) : obs := (executed tr, prompts tr, connects tr).

Definition obs_app (a b : obs) : obs :=
  ((fst (fst a) ++ fst (fst b))%list, (snd (fst a) ++ snd (fst b))%list,
   snd a + snd b).

Definition silent : obs := ([], [], 0).

(** From [st], the computation [m] ends with [r], having added events that
    show [o]. *)
Definition runs {A} (m : M A) (st : state) (r : result A) (o : obs) : Prop :=
  exists evs st',
    m st = (r, st') /\ events st' = (events st ++ evs)%list /\ observe evs = o.

(** ** The production safety check *)

(** The answer typed at the prompt reads [yes] once stripped of
    surrounding white space and put in lower case. *)
Definition confirmed (w : World) : bool :=
  match stdin w with
  | Line s => lower (strip s) =? "yes"
  | Eof => false
  | Interrupt => false
  end.

Definition confirmation_prompt : string :=
  "Are you sure you want to proceed? Type 'yes' to confirm: ".

(** What is shown once [tables] has been listed. *)
Definition after_listing (w : World) (is_prod dry_run : bool)
    (tables : list table) : obs :=
  if is_prod && negb dry_run && negb (length tables =? 0)%nat then
    if confirmed w
    then (flat_map (sent_for "dune" dry_run) tables, [confirmation_prompt], 0)
    else ([], [confirmation_prompt], 0)
  else (flat_map (sent_for "dune" dry_run) tables, [], 0).

(** ** main *)

(** The key [DuneTrinoConnection] ends up with: the flag, else the
    environment. *)
Definition api_key_used (w : World) (args : Args) : option string :=
  or_else (args_api_key args) (getenv w "DUNE_API_KEY").

Definition is_prod_target (args : Args) : bool :=
  match args_target args with
  | prod => true
  | dev => false
  end.

(** [main] stops at one of its two validations. *)
Definition rejected (args : Args) : bool :=
  (truthy (args_table args) && negb (truthy (args_schema args)))
  || (is_prod_target args
      && (negb (truthy (args_schema args))
          || negb (truthy (args_table args)))).

Definition team_name (w : World) : string :=
  match getenv w "DUNE_TEAM_NAME" with
  | Some v => v
  | None => "dune"
  end.

(** The metadata query [main] sends for [args]. *)
Definition listing (w : World) (args : Args) : statement :=
  if truthy (args_table args) then
    (query_specific_table,
     ["dune"; fmt (args_schema args); fmt (args_table args)])
  else if truthy (args_schema args) then
    (query_by_pattern, ["dune"; fmt (args_schema args)])
  else
    match args_target args with
    | prod => (query_by_schema, ["dune"; team_name w])
    | dev => (query_by_pattern, ["dune"; team_name w ++ "__tmp_%"])
    end.

(** What the try block comes to when it lists with [stmt] and the server
    has received [hist] before. *)
Definition try_behaviour (w : World) (args : Args) (is_prod dry_run : bool)
    (stmt : statement) (hist : list statement) : result Z * obs :=
  if negb (truthy (api_key_used w args)) then
    (Raise (ValueError
       "DUNE_API_KEY environment variable is required or pass api_key parameter"),
     silent)
  else
    match dbapi_connect w (fmt (api_key_used w args)) with
    | Some msg => (Raise (DriverError msg), ([], [], 1))
    | None =>
        match server w hist stmt with
        | inl msg => (Raise (DriverError msg), ([stmt], [], 1))
        | inr rows =>
            (Ok 0%Z,
             obs_app ([stmt], [], 1)
               (after_listing w is_prod dry_run (tables_of_rows rows)))
        end
    end.

(** The exit code of [main] and what its run shows. *)
Definition behaviour (w : World) (args : Args) (hist : list statement)
  : Z * obs :=
  if rejected args then (1%Z, silent)
  else
    match try_behaviour w args (is_prod_target args)
            (negb (args_execute args)) (listing w args) hist with
    | (Ok code, o) => (code, o)
    | (Raise _, o) => (1%Z, o)
    end.

(** The statement the try block lists with. *)
Definition statement_for (args : Args) (schema_or_pattern : string)
    (use_pattern : bool) : statement :=
  if truthy (args_table args) then
    (query_specific_table,
     ["dune"; fmt (args_schema args); fmt (args_table args)])
  else if use_pattern then (query_by_pattern, ["dune"; schema_or_pattern])
  else (query_by_schema, ["dune"; schema_or_pattern]).

(** ** Concrete worlds and command lines *)

Module Examples.

(** An environment that holds an API key and nothing else. *)
Definition env (name : string) : option string :=
  if name =? "DUNE_API_KEY" then Some "secret" else None.

(** The connection succeeds; the server answers its first statement
    with [rows] and accepts every later one; [answer] is what comes
    from the terminal. *)
Definition world (rows : list row) (answer : input_result) : World :=
  {| getenv := env;
     dbapi_connect := fun _ => None;
     server := fun hist _ =>
                 match hist with
                 | [] => inr rows
                 | _ :: _ => inr []
                 end;
     stdin := answer |}.

Definition orders : row := ("dune", "orders", "BASE TABLE").

Definition connection : Connection :=
  TrinoConnection "trino.api.dune.com" 443 "dune" "secret".

(** [--target prod --schema dune --table orders --execute] *)
Definition prod_execute : Args :=
  {| args_target := prod; args_schema := Some "dune";
     args_table := Some "orders"; args_execute := true;
     args_api_key := None; args_verbose := false |}.

(** [--target prod --table orders] *)
Definition prod_no_schema : Args :=
  {| args_target := prod; args_schema := None;
     args_table := Some "orders"; args_execute := false;
     args_api_key := None; args_verbose := false |}.

(** [--table orders] *)
Definition dev_table_no_schema : Args :=
  {| args_target := dev; args_schema := None;
     args_table := Some "orders"; args_execute := false;
     args_api_key := None; args_verbose := false |}.

(** [--table ''] *)
Definition dev_empty_table : Args :=
  {| args_target := dev; args_schema := None;
     args_table := Some ""; args_execute := false;
     args_api_key := None; args_verbose := false |}.

(** No flag at all. *)
Definition dev_default : Args :=
  {| args_target := dev; args_schema := None;
     args_table := None; args_execute := false;
     args_api_key := None; args_verbose := false |}.

(** A table name with a double quote in it. *)
Definition bad_name : string := String "a" (String dquote "b").

Definition bad_table : table :=
  {| t_schema := "dune"; t_name := bad_name; t_type := "BASE TABLE" |}.

Definition good_table : table :=
  {| t_schema := "dune"; t_name := "orders"; t_type := "BASE TABLE" |}.

(** The metadata query of [--schema dune --table orders]. *)
Definition orders_query : statement :=
  (query_specific_table, ["dune"; "dune"; "orders"]).

(** The statement that drops the table [orders] of the schema
    [dune]. *)
Definition drop_orders : statement :=
  ("drop table if exists " ++ quoted "dune" ++ "." ++ quoted "dune" ++ "."
     ++ quoted "orders", []).

End Examples.

(** ** More worlds and command lines *)

Module Scenarios.

(** No API key in the environment. *)
Definition world_without_key : World :=
  {| getenv := fun _ => None;
     dbapi_connect := fun _ => None;
     server := fun _ _ => inr [];
     stdin := Eof |}.

(** [trino.dbapi.connect] raises. *)
Definition world_refusing : World :=
  {| getenv := Examples.env;
     dbapi_connect := fun _ => Some "connection refused";
     server := fun _ _ => inr [];
     stdin := Eof |}.

(** The server fails every statement. *)
Definition world_failing : World :=
  {| getenv := Examples.env;
     dbapi_connect := fun _ => None;
     server := fun _ _ => inl "query failed";
     stdin := Eof |}.


(** The team name comes from the environment. *)
Definition world_of_team (rows : list row) : World :=
  {| getenv := fun name =>
                 if name =? "DUNE_TEAM_NAME" then Some "acme"
                 else Examples.env name;
     dbapi_connect := fun _ => None;
     server := fun hist _ =>
                 match hist with
                 | [] => inr rows
                 | _ :: _ => inr []
                 end;
     stdin := Eof |}.

(** [--execute] *)
Definition dev_execute : Args :=
  {| args_target := dev; args_schema := None;
     args_table := None; args_execute := true;
     args_api_key := None; args_verbose := false |}.

(** [--schema dune__tmp_a --execute] *)
Definition dev_schema_execute : Args :=
  {| args_target := dev; args_schema := Some "dune__tmp_a";
     args_table := None; args_execute := true;
     args_api_key := None; args_verbose := false |}.

Definition tmp_orders : row := ("dune__tmp_a", "orders", "BASE TABLE").

Definition tmp_daily : row := ("dune__tmp_a", "daily", "VIEW").

End Scenarios.

(** The identifiers of [t] can be quoted for the catalog [catalog]. *)
Definition valid_table (catalog : string) (t : table) : bool :=
  valid_identifiers catalog (t_schema t) (t_name t).

(** ** The protocol of the driver

    How the script may use the driver: it connects, opens one cursor at a
    time on the open connection, executes on an open cursor only, closes
    the cursor, and closes the connection last.  Logging and the prompt
    may come at any time. *)

Inductive pstate : Type :=
| Idle          (* no connection *)
| Connected     (* a connection, no cursor *)
| InCursor      (* a connection and an open cursor *)
| Closed.       (* the connection has been closed *)

(** One event, seen from [s]; [None] when the event is out of place.  A
    [trino.dbapi.connect] that raises leaves no connection. *)
Definition protocol_step (w : World) (s : pstate) (e : event)
  : option pstate :=
  match e with
  | Log _ _ => Some s
  | SetLevel _ _ => Some s
  | Input _ => Some s
  | Connect _ _ _ api_key =>
      match s with
      | Idle =>
          match dbapi_connect w api_key with
          | None => Some Connected
          | Some _ => Some Idle
          end
      | _ => None
      end
  | CursorOpen =>
      match s with
      | Connected => Some InCursor
      | _ => None
      end
  | Execute _ _ =>
      match s with
      | InCursor => Some InCursor
      | _ => None
      end
  | CursorClose =>
      match s with
      | InCursor => Some Connected
      | _ => None
      end
  | ConnClose =>
      match s with
      | Connected => Some Closed
      | _ => None
      end
  end.

(** A whole trace, seen from [s]. *)
Fixpoint protocol (w : World) (s : pstate) (tr : trace) : option pstate :=
  match tr with
  | [] => Some s
  | e :: tr' =>
      match protocol_step w s e with
      | Some s' => protocol w s' tr'
      | None => None
      end
  end.

(** From [st] and the protocol state [s], the events [m] adds follow the
    protocol, and the outcome, the final state and the protocol state
    reached satisfy [Q]. *)
Definition obeys (w : World) {A} (m : M A) (st : state) (s : pstate)
    (Q : result A -> state -> pstate -> Prop) : Prop :=
  exists evs s',
    events (snd (m st)) = (events st ++ evs)%list
    /\ protocol w s evs = Some s'
    /\ Q (fst (m st)) (snd (m st)) s'.

(** The protocol state is [s] again and [dune_conn] is untouched. *)
Definition same (st : state) (s : pstate) {A}
  : result A -> state -> pstate -> Prop :=
  fun _ st' s' => s' = s /\ dune_conn st' = dune_conn st.

(** [dune_conn] refers to an object that holds a connection. *)
Definition holds_connection (st : state) : bool :=
  match dune_conn st with
  | Some self =>
      match self_connection self with
      | Some _ => true
      | None => false
      end
  | None => false
  end.

(** The protocol state and [dune_conn] agree on whether there is a
    connection to close. *)
Definition in_step (st : state) (s : pstate) : Prop :=
  (s = Connected /\ holds_connection st = true)
  \/ (s = Idle /\ holds_connection st = false).

(** Called with the connection open and no cursor, [m] follows the
    protocol and hands the connection back with no cursor open, whether
    it returns or raises. *)
Definition hands_back (w : World) {A} (m : M A) : Prop :=
  forall st,
  exists evs,
    events (snd (m st)) = (events st ++ evs)%list
    /\ protocol w Connected evs = Some Connected.

(** * Properties *)

(** ** Traces *)

Section TraceFacts.

Lemma executed_app (t1 t2 : trace) :
  executed (t1 ++ t2)%list = (executed t1 ++ executed t2)%list.
Proof.
  induction t1 as [|e t1 IH]; simpl; [reflexivity|].
  destruct e; simpl; rewrite IH; reflexivity.
Qed.

Lemma prompts_app (t1 t2 : trace) :
  prompts (t1 ++ t2)%list = (prompts t1 ++ prompts t2)%list.
Proof.
  induction t1 as [|e t1 IH]; simpl; [reflexivity|].
  destruct e; simpl; rewrite IH; reflexivity.
Qed.

Lemma connects_app (t1 t2 : trace) :
  connects (t1 ++ t2)%list = connects t1 + connects t2.
Proof.
  induction t1 as [|e t1 IH]; simpl; [reflexivity|].
  destruct e; simpl; rewrite IH; reflexivity.
Qed.

End TraceFacts.

Lemma grows_trans (st1 st2 st3 : state) (e1 e2 : trace) :
  grows st1 e1 st2 -> grows st2 e2 st3 -> grows st1 (e1 ++ e2)%list st3.
Proof.
  intros [H1 C1] [H2 C2]. split.
  - rewrite H2, H1. symmetry. apply app_assoc.
  - congruence.
Qed.

(** ** Strings *)

Section StringFacts.

Lemma contains_char_In (c : ascii) (s : string) :
  contains_char c s = true <-> In c (list_ascii_of_string s).
Proof.
  induction s as [|d s IH]; simpl.
  - split; [discriminate | tauto].
  - rewrite orb_true_iff, IH, Ascii.eqb_eq.
    split; (intros [H|H]; [left; congruence | right; exact H]).
Qed.

Lemma string_eqb_false (s1 s2 : string) :
  s1 <> s2 -> (s1 =? s2) = false.
Proof. intros H. apply String.eqb_neq. exact H. Qed.

End StringFacts.

(** ** quote_identifier and the statement *)

Lemma quote_identifier_ok (identifier : string) :
  contains_char dquote identifier = false ->
  quote_identifier identifier = Ok (quoted identifier).
Proof. intros H. unfold quote_identifier. rewrite H. reflexivity. Qed.

Lemma drop_statement_valid (catalog schema table_name table_type : string) :
  valid_identifiers catalog schema table_name = true ->
  drop_statement catalog schema table_name table_type =
    Ok ((if table_type =? "VIEW" then "drop view if exists "
         else "drop table if exists ")
          ++ quoted catalog ++ "." ++ quoted schema ++ "."
          ++ quoted table_name).
Proof.
  unfold valid_identifiers. rewrite !andb_true_iff, !negb_true_iff.
  intros [[Hc Hs] Ht]. unfold drop_statement.
  rewrite (quote_identifier_ok _ Hc), (quote_identifier_ok _ Hs),
    (quote_identifier_ok _ Ht).
  destruct (table_type =? "VIEW"); reflexivity.
Qed.

Lemma drop_statement_invalid (catalog schema table_name table_type : string) :
  valid_identifiers catalog schema table_name = false ->
  exists msg,
    drop_statement catalog schema table_name table_type
      = Raise (ValueError msg).
Proof.
  unfold valid_identifiers, drop_statement, quote_identifier.
  destruct (contains_char dquote catalog); [eexists; reflexivity|].
  destruct (contains_char dquote schema); [eexists; reflexivity|].
  destruct (contains_char dquote table_name); [eexists; reflexivity|].
  discriminate.
Qed.

(** Runs a computation made of primitives to its end and reads the
    result, the events it added and their projections off the final
    state. *)
Ltac run_to_end :=
  unfold bind, log, cursor_open, cursor_close, emit, ret, raise, is_Exception;
  cbn [events dune_conn fst snd];
  eexists _, _;
  split; [reflexivity|];
  split; [split; cbn [events dune_conn];
          [rewrite <- ?app_assoc; reflexivity | reflexivity]|];
  cbn [executed prompts connects app In];
  repeat split; auto.

(** ** One call of drop_table_or_view, read off the server's answers *)

Section OneDrop.

Variable w : World.
Variable connection : Connection.
Variables schema table_name table_type catalog : string.
Variable dry_run : bool.

Lemma drop_table_or_view_run (st : state) :
  exists evs st',
    drop_table_or_view w connection schema table_name table_type catalog
      dry_run st
    = (Ok (outcome w schema table_name table_type catalog dry_run
             (executed (events st))), st')
    /\ grows st evs st'
    /\ executed evs = sent schema table_name table_type catalog dry_run
    /\ prompts evs = []
    /\ connects evs = 0
    /\ In (attempt_log schema table_name table_type catalog) evs.
Proof.
  unfold drop_table_or_view, sent, outcome, attempt_log.
  destruct (valid_identifiers catalog schema table_name) eqn:V.
  - rewrite (drop_statement_valid _ _ _ table_type V).
    destruct dry_run.
    + run_to_end.
    + unfold bind at 1 2, log at 1, cursor_open, emit at 1 2.
      unfold try_finally, try_except, try_catch, bind at 1, cursor_execute.
      cbn [events dune_conn].
      rewrite executed_app, executed_app. cbn [executed].
      rewrite !app_nil_r.
      destruct (server w (executed (events st)) _) as [msg|rows];
        run_to_end.
  - destruct (drop_statement_invalid _ _ _ table_type V) as [msg ->].
    run_to_end.
Qed.

End OneDrop.

(** ** The loop of drop_tables *)

Lemma count_true_false (l : list bool) :
  count true l + count false l = length l.
Proof.
  unfold count. induction l as [|[] l IH]; simpl; lia.
Qed.

Section Loop.

Variable w : World.
Variable connection : Connection.
Variable catalog : string.
Variable dry_run : bool.

Lemma outcomes_length (hist : list statement) (tables : list table) :
  length (outcomes w catalog dry_run hist tables) = length tables.
Proof.
  revert hist. induction tables as [|t rest IH]; intros hist; simpl;
    [reflexivity | rewrite IH; reflexivity].
Qed.

Lemma drop_loop_run (tables : list table) :
  forall (success_count failed_count : nat) (st : state),
  exists evs st',
    drop_loop w connection tables catalog dry_run success_count
      failed_count st
    = (Ok (success_count
             + count true (outcomes w catalog dry_run (executed (events st))
                                     tables),
           failed_count
             + count false (outcomes w catalog dry_run (executed (events st))
                                     tables)), st')
    /\ grows st evs st'
    /\ executed evs = flat_map (sent_for catalog dry_run) tables
    /\ prompts evs = []
    /\ connects evs = 0
    /\ (forall t, In t tables -> In (attempt_of catalog t) evs).
Proof.
  induction tables as [|t rest IH]; intros sc fc st.
  - exists [], st. cbn. rewrite !Nat.add_0_r.
    repeat split; auto; try contradiction.
    symmetry; apply app_nil_r.
  - destruct (drop_table_or_view_run w connection (t_schema t) (t_name t)
                (t_type t) catalog dry_run st)
      as (evs1 & st1 & E1 & G1 & X1 & P1 & C1 & I1).
    assert (H1 : executed (events st1)
                 = (executed (events st) ++ sent_for catalog dry_run t)%list).
    { destruct G1 as [-> _]. rewrite executed_app, X1. reflexivity. }
    cbn [drop_loop outcomes]. unfold bind at 1. rewrite E1.
    set (b := outcome w (t_schema t) (t_name t) (t_type t) catalog dry_run
                (executed (events st))).
    destruct (IH (if b then sc + 1 else sc) (if b then fc else fc + 1) st1)
      as (evs2 & st2 & E2 & G2 & X2 & P2 & C2 & I2).
    exists (evs1 ++ evs2)%list, st2.
    split.
    { rewrite <- H1. destruct b; rewrite E2; unfold count; cbn;
        do 2 f_equal; f_equal; lia. }
    split; [exact (grows_trans G1 G2)|].
    rewrite executed_app, prompts_app, connects_app, X1, X2, P1, P2, C1, C2.
    repeat split; auto.
    intros t' [<- | Hin]; apply in_or_app; [left | right]; auto.
Qed.

Lemma drop_tables_run (tables : list table) (st : state) :
  exists evs st',
    drop_tables w connection tables catalog dry_run st
    = (Ok {| total := length tables;
             success := count true (outcomes w catalog dry_run (executed (events st))
                                     tables);
             failed := count false (outcomes w catalog dry_run (executed (events st))
                                     tables)
          |}, st')
    /\ grows st evs st'
    /\ executed evs = flat_map (sent_for catalog dry_run) tables
    /\ prompts evs = []
    /\ connects evs = 0
    /\ (forall t, In t tables -> In (attempt_of catalog t) evs).
Proof.
  destruct tables as [|t0 rest].
  - unfold drop_tables. run_to_end; try contradiction.
  - set (tables := t0 :: rest).
    unfold drop_tables.
    change (match tables with [] => _ | _ :: _ => ?k end) with k.
    unfold bind at 1 2 3 4, log at 1 2 3, emit at 1 2 3.
    set (st0 := {| events := _; dune_conn := _ |}).
    assert (G0 : exists evs0, grows st evs0 st0 /\ executed evs0 = []
                              /\ prompts evs0 = [] /\ connects evs0 = 0).
    { eexists [_; _; _]. subst st0. unfold grows. cbn [events dune_conn].
      rewrite <- !app_assoc. repeat split. }
    destruct G0 as (evs0 & G0 & X0 & P0 & C0).
    assert (H0 : executed (events st0) = executed (events st)).
    { destruct G0 as [-> _]. rewrite executed_app, X0. apply app_nil_r. }
    destruct (drop_loop_run tables 0 0 st0)
      as (evs1 & st1 & E1 & G1 & X1 & P1 & C1 & I1).
    rewrite E1, H0. cbn [Nat.add].
    destruct (@grows_trans st st0 st1 _ _ G0 G1) as [Hev Hdc].
    eexists (evs0 ++ evs1 ++ [_; _; _])%list, _.
    split; [unfold bind, log, emit, ret; cbn [events dune_conn];
            reflexivity|].
    split.
    { split; cbn [events dune_conn]; [|exact Hdc].
      rewrite Hev, <- !app_assoc. reflexivity. }
    rewrite !executed_app, !prompts_app, !connects_app, X0, X1, P0, P1,
      C0, C1.
    cbn [executed prompts connects app]. rewrite !app_nil_r.
    repeat split; auto.
    intros t Hin. apply in_or_app. right. apply in_or_app. left. auto.
Qed.

End Loop.

(** ** Composing runs *)

Section Runs.

Lemma observe_app (t1 t2 : trace) :
  observe (t1 ++ t2)%list = obs_app (observe t1) (observe t2).
Proof.
  unfold observe, obs_app. cbn [fst snd].
  rewrite executed_app, prompts_app, connects_app. reflexivity.
Qed.

Lemma runs_eq {A} (m : M A) st r r' o o' :
  runs m st r o -> r = r' -> o = o' -> runs m st r' o'.
Proof. intros H <- <-. exact H. Qed.

Lemma runs_ret {A} (a : A) st : runs (ret a) st (Ok a) silent.
Proof. exists [], st. repeat split. symmetry. apply app_nil_r. Qed.

Lemma runs_raise {A} (e : exn) st : runs (@raise A e) st (Raise e) silent.
Proof. exists [], st. repeat split. symmetry. apply app_nil_r. Qed.

Lemma runs_emit (e : event) st : runs (emit e) st (Ok tt) (observe [e]).
Proof. exists [e], (snd (emit e st)). repeat split. Qed.

Lemma runs_log lvl msg st : runs (log lvl msg) st (Ok tt) silent.
Proof. apply (runs_emit (Log lvl msg)). Qed.

Lemma runs_set_dune_conn c st : runs (set_dune_conn c) st (Ok tt) silent.
Proof.
  exists [], (snd (set_dune_conn c st)). repeat split.
  symmetry. apply app_nil_r.
Qed.

Lemma runs_get_dune_conn st :
  runs get_dune_conn st (Ok (dune_conn st)) silent.
Proof. exists [], st. repeat split. symmetry. apply app_nil_r. Qed.

Lemma runs_bind {A B} (m : M A) (k : A -> M B) st a o1 r o2 :
  runs m st (Ok a) o1 ->
  (forall st',
      executed (events st')
      = (executed (events st) ++ fst (fst o1))%list ->
      runs (k a) st' r o2) ->
  runs (bind m k) st r (obs_app o1 o2).
Proof.
  intros (evs1 & st1 & E1 & Hev1 & O1) Hk.
  destruct (Hk st1) as (evs2 & st2 & E2 & Hev2 & O2).
  { rewrite Hev1, executed_app, <- O1. reflexivity. }
  exists (evs1 ++ evs2)%list, st2. unfold bind. rewrite E1.
  split; [exact E2|]. split.
  - rewrite Hev2, Hev1. symmetry. apply app_assoc.
  - rewrite observe_app, O1, O2. reflexivity.
Qed.

Lemma runs_bind_raise {A B} (m : M A) (k : A -> M B) st e o :
  runs m st (Raise e) o -> runs (bind m k) st (Raise e) o.
Proof.
  intros (evs & st1 & E & Hev & O). exists evs, st1.
  unfold bind. rewrite E. auto.
Qed.

Lemma runs_try_catch_ok {A} handles (m : M A) h st a o :
  runs m st (Ok a) o -> runs (try_catch handles m h) st (Ok a) o.
Proof.
  intros (evs & st1 & E & Hev & O). exists evs, st1.
  unfold try_catch. rewrite E. auto.
Qed.

Lemma runs_try_catch_caught {A} handles (m : M A) h st e o1 r o2 :
  runs m st (Raise e) o1 ->
  handles e = true ->
  (forall st', runs (h e) st' r o2) ->
  runs (try_catch handles m h) st r (obs_app o1 o2).
Proof.
  intros (evs1 & st1 & E1 & Hev1 & O1) Hh Hk.
  destruct (Hk st1) as (evs2 & st2 & E2 & Hev2 & O2).
  exists (evs1 ++ evs2)%list, st2. unfold try_catch. rewrite E1, Hh.
  split; [exact E2|]. split.
  - rewrite Hev2, Hev1. symmetry. apply app_assoc.
  - rewrite observe_app, O1, O2. reflexivity.
Qed.

Lemma runs_try_finally {A} (m : M A) (f : M unit) st r o1 o2 :
  runs m st r o1 ->
  (forall st', runs f st' (Ok tt) o2) ->
  runs (try_finally m f) st r (obs_app o1 o2).
Proof.
  intros (evs1 & st1 & E1 & Hev1 & O1) Hf.
  destruct (Hf st1) as (evs2 & st2 & E2 & Hev2 & O2).
  exists (evs1 ++ evs2)%list, st2. unfold try_finally. rewrite E1, E2.
  split; [reflexivity|]. split.
  - rewrite Hev2, Hev1. symmetry. apply app_assoc.
  - rewrite observe_app, O1, O2. reflexivity.
Qed.

Lemma runs_cursor_execute w sql params st :
  runs (cursor_execute w sql params) st
    (match server w (executed (events st)) (sql, params) with
     | inr rows => Ok rows
     | inl msg => Raise (DriverError msg)
     end)
    ([(sql, params)], [], 0).
Proof.
  unfold runs, cursor_execute. cbv beta zeta.
  destruct (server w (executed (events st)) (sql, params));
    eexists [Execute sql params], _;
    (split; [reflexivity | split; reflexivity]).
Qed.

Lemma runs_input w prompt st :
  runs (input w prompt) st
    (match stdin w with
     | Line s => Ok s
     | Eof => Raise EOFError
     | Interrupt => Raise KeyboardInterrupt
     end)
    ([], [prompt], 0).
Proof.
  unfold runs, input, bind, emit, ret, raise. cbv beta zeta iota.
  destruct (stdin w); eexists [Input prompt], _;
    (split; [reflexivity | split; reflexivity]).
Qed.

Lemma grows_runs {A} (m : M A) st r evs st' :
  m st = (r, st') -> grows st evs st' -> runs m st r (observe evs).
Proof. intros E [Hev _]. exists evs, st'. auto. Qed.

End Runs.

Create HintDb runs_db.
#[export] Hint Resolve runs_ret runs_raise runs_log runs_set_dune_conn
  runs_get_dune_conn : runs_db.
#[export] Hint Extern 1 (runs (emit _) _ _ _) => apply runs_emit : runs_db.
#[export] Hint Extern 1 (runs (cursor_open _) _ _ _) =>
  apply (runs_emit CursorOpen) : runs_db.
#[export] Hint Extern 1 (runs cursor_close _ _ _) =>
  apply (runs_emit CursorClose) : runs_db.

(** One step through [m ;; k] when [m] is a primitive that cannot raise.
    The statements executed so far are kept in one hypothesis, relative to
    the state the run started from. *)
Ltac run_step :=
  lazymatch goal with
  | |- runs (bind _ _) ?st _ _ =>
      eapply runs_bind;
      [ solve [auto with runs_db]
      | let st' := fresh "st" in
        let H := fresh "Hh" in
        intros st' H;
        cbn [fst snd silent observe executed app] in H;
        rewrite ?app_nil_r in H;
        try match goal with
            | Hp : executed (events st) = _ |- _ => rewrite Hp in H; clear Hp
            end ]
  end.

(** Closes a goal [runs m st r o] for straight-line [m] over primitives. *)
Ltac run_straight :=
  eapply runs_eq;
  [ repeat run_step; solve [auto with runs_db]
  | reflexivity
  | reflexivity ].

(** The shape shared by the three listing functions: a cursor, three log
    lines, the query inside try/except/finally. *)
Ltac run_listing w st :=
  let Hx := fresh "Hx" in
  let S := fresh "S" in
  match goal with
  | |- runs _ st (match server w (executed (events st)) ?stmt with
                  | inl _ => _ | inr _ => _ end) _ =>
      destruct (server w (executed (events st)) stmt) eqn:S;
      (eapply runs_eq;
       [ do 4 run_step;
         eapply runs_try_finally; [|intros; auto with runs_db];
         match goal with
         | Hh : executed (events ?cur) = _
           |- runs (try_except (bind (cursor_execute w ?q ?ps) _) _) ?cur _ _ =>
             pose proof (runs_cursor_execute w q ps cur) as Hx;
             rewrite Hh, ?app_nil_r, S in Hx
         end;
         first
           [ eapply runs_try_catch_ok; eapply runs_bind;
             [exact Hx | intros; auto with runs_db]
           | eapply runs_try_catch_caught;
             [ eapply runs_bind_raise; exact Hx
             | reflexivity
             | intros; eapply runs_bind; [auto with runs_db|];
               intros; auto with runs_db ] ]
       | reflexivity
       | reflexivity ])
  end.

Section Listing.

Variable w : World.
Variable connection : Connection.

Lemma list_specific_table_runs (schema table_name catalog : string) st :
  runs (list_specific_table w connection schema table_name catalog) st
    (match server w (executed (events st))
             (query_specific_table, [catalog; schema; table_name]) with
     | inl msg => Raise (DriverError msg)
     | inr rows => Ok (tables_of_rows rows)
     end)
    ([(query_specific_table, [catalog; schema; table_name])], [], 0).
Proof. unfold list_specific_table. run_listing w st. Qed.

Lemma list_tables_by_pattern_runs (schema_pattern catalog : string) st :
  runs (list_tables_by_pattern w connection schema_pattern catalog) st
    (match server w (executed (events st))
             (query_by_pattern, [catalog; schema_pattern]) with
     | inl msg => Raise (DriverError msg)
     | inr rows => Ok (tables_of_rows rows)
     end)
    ([(query_by_pattern, [catalog; schema_pattern])], [], 0).
Proof. unfold list_tables_by_pattern. run_listing w st. Qed.

Lemma list_tables_by_schema_runs (schema catalog : string) st :
  runs (list_tables_by_schema w connection schema catalog) st
    (match server w (executed (events st))
             (query_by_schema, [catalog; schema]) with
     | inl msg => Raise (DriverError msg)
     | inr rows => Ok (tables_of_rows rows)
     end)
    ([(query_by_schema, [catalog; schema])], [], 0).
Proof. unfold list_tables_by_schema. run_listing w st. Qed.

End Listing.

(** ** The production safety check *)

Lemma preview_loop_runs (tables : list table) :
  forall i st, runs (preview_loop i tables) st (Ok tt) silent.
Proof.
  induction tables as [|t rest IH]; intros i st; cbn [preview_loop].
  - auto with runs_db.
  - eapply runs_eq; [run_step; apply IH | reflexivity | reflexivity].
Qed.

#[export] Hint Resolve preview_loop_runs : runs_db.

Lemma confirm_production_runs (w : World) (tables : list table)
    (schema_or_pattern : string) st :
  runs (confirm_production w tables schema_or_pattern) st
    (Ok (if confirmed w then None else Some 0%Z))
    ([], [confirmation_prompt], 0).
Proof.
  unfold confirm_production, confirmed.
  pose proof (fun st' => runs_input w confirmation_prompt st') as Hin.
  unfold confirmation_prompt in *.
  destruct (stdin w) as [s| |].
  - destruct (lower (strip s) =? "yes") eqn:Y;
      (eapply runs_eq;
       [ do 10 run_step;
         eapply runs_bind;
         [ destruct (_ <? _)%nat; auto with runs_db |];
         intros; run_step;
         eapply runs_try_catch_ok; eapply runs_bind; [apply Hin|];
         intros; cbv zeta; rewrite Y; cbn [negb];
         eapply runs_bind; auto with runs_db
       | reflexivity
       | reflexivity ]).
  - eapply runs_eq;
      [ do 10 run_step;
        eapply runs_bind;
        [ destruct (_ <? _)%nat; auto with runs_db |];
        intros; run_step;
        eapply runs_try_catch_caught;
        [ eapply runs_bind_raise; apply Hin
        | reflexivity
        | intros; eapply runs_bind; auto with runs_db ]
      | reflexivity
      | reflexivity ].
  - eapply runs_eq;
      [ do 10 run_step;
        eapply runs_bind;
        [ destruct (_ <? _)%nat; auto with runs_db |];
        intros; run_step;
        eapply runs_try_catch_caught;
        [ eapply runs_bind_raise; apply Hin
        | reflexivity
        | intros; eapply runs_bind; auto with runs_db ]
      | reflexivity
      | reflexivity ].
Qed.

(** ** The end of the try block *)

Lemma drop_tables_runs (w : World) (connection : Connection)
    (tables : list table) (catalog : string) (dry_run : bool) st :
  runs (drop_tables w connection tables catalog dry_run) st
    (Ok {| total := length tables;
           success := count true (outcomes w catalog dry_run
                                    (executed (events st)) tables);
           failed := count false (outcomes w catalog dry_run
                                    (executed (events st)) tables) |})
    (flat_map (sent_for catalog dry_run) tables, [], 0).
Proof.
  destruct (drop_tables_run w connection catalog dry_run tables st)
    as (evs & st' & E & G & X & P & C & _).
  eapply runs_eq; [exact (grows_runs _ E G) | reflexivity |].
  unfold observe. rewrite X, P, C. reflexivity.
Qed.

Lemma drop_listed_runs (w : World) (connection : Connection)
    (is_prod dry_run : bool) (schema_or_pattern : string)
    (tables : list table) st :
  runs (drop_listed w connection is_prod dry_run schema_or_pattern tables) st
    (Ok 0%Z) (after_listing w is_prod dry_run tables).
Proof.
  unfold drop_listed, after_listing.
  assert (Hdrop : forall st',
             runs (drop_tables w connection tables "dune" dry_run ;;
                   (if dry_run then
                      log INFO "" ;;
                      log INFO (str_mul "=" 80) ;;
                      log INFO "DRY RUN COMPLETE" ;;
                      log INFO "Above are the DROP commands that would be executed." ;;
                      log INFO "Use --execute flag to actually drop the tables/views." ;;
                      log INFO (str_mul "=" 80)
                    else ret tt) ;;
                   ret 0%Z) st' (Ok 0%Z)
               (flat_map (sent_for "dune" dry_run) tables, [], 0)).
  { intros st'. eapply runs_eq.
    - eapply runs_bind; [apply drop_tables_runs|]. intros st1 _.
      eapply runs_bind; [|intros; apply runs_ret].
      destruct dry_run; [run_straight | apply runs_ret].
    - reflexivity.
    - unfold obs_app, silent. cbn [fst snd].
      destruct dry_run; cbn [fst snd app Nat.add]; rewrite !app_nil_r;
        reflexivity. }
  destruct (is_prod && negb dry_run && negb (length tables =? 0)%nat).
  - pose proof (confirm_production_runs w tables schema_or_pattern st) as Hc.
    destruct (confirmed w).
    + eapply runs_eq; [eapply runs_bind; [exact Hc | intros; apply Hdrop]
                      | reflexivity | reflexivity].
    + eapply runs_eq; [eapply runs_bind; [exact Hc | intros; apply runs_ret]
                      | reflexivity | reflexivity].
  - eapply runs_eq; [eapply runs_bind; [apply runs_ret | intros; apply Hdrop]
                    | reflexivity | reflexivity].
Qed.

(** ** The try block and main *)

Lemma DuneTrinoConnection_init_runs (w : World) (api_key : option string) st :
  runs (DuneTrinoConnection_init w api_key) st
    (if truthy (or_else api_key (getenv w "DUNE_API_KEY")) then
       Ok {| self_api_key := fmt (or_else api_key (getenv w "DUNE_API_KEY"));
             self_host := "trino.api.dune.com"; self_port := 443%Z;
             self_catalog := "dune"; self_connection := None |}
     else
       Raise (ValueError
         "DUNE_API_KEY environment variable is required or pass api_key parameter"))
    silent.
Proof.
  unfold DuneTrinoConnection_init. cbv zeta.
  destruct (truthy (or_else api_key (getenv w "DUNE_API_KEY"))); cbn [negb].
  - run_straight.
  - apply runs_raise.
Qed.

Lemma connect_runs (w : World) (self : DuneTrinoConnection) st :
  runs (connect w self) st
    (match dbapi_connect w (self_api_key self) with
     | Some msg => Raise (DriverError msg)
     | None => Ok (TrinoConnection (self_host self) (self_port self)
                     (self_catalog self) (self_api_key self))
     end)
    ([], [], 1).
Proof.
  unfold connect.
  destruct (dbapi_connect w (self_api_key self));
    (eapply runs_eq; [repeat run_step; auto with runs_db
                     | reflexivity | reflexivity]).
Qed.

Lemma close_runs (self : DuneTrinoConnection) st :
  runs (close self) st (Ok tt) silent.
Proof.
  unfold close. destruct (self_connection self);
    [run_straight | apply runs_ret].
Qed.

(** One step through [m ;; k] where [tac] shows how [m] runs. *)
Ltac run_by tac :=
  lazymatch goal with
  | |- runs (bind _ _) ?st _ _ =>
      eapply runs_bind;
      [ tac
      | let st' := fresh "st" in
        let H := fresh "Hh" in
        intros st' H;
        cbn [fst snd silent observe executed app] in H;
        rewrite ?app_nil_r in H;
        try match goal with
            | Hp : executed (events st) = _ |- _ => rewrite Hp in H; clear Hp
            end ]
  end.

Lemma main_try_runs (w : World) (args : Args) (is_prod dry_run : bool)
    (schema_or_pattern : string) (use_pattern : bool) st :
  runs (main_try w args is_prod dry_run schema_or_pattern use_pattern) st
    (fst (try_behaviour w args is_prod dry_run
            (statement_for args schema_or_pattern use_pattern)
            (executed (events st))))
    (snd (try_behaviour w args is_prod dry_run
            (statement_for args schema_or_pattern use_pattern)
            (executed (events st)))).
Proof.
  unfold main_try, try_behaviour, api_key_used.
  pose proof (DuneTrinoConnection_init_runs w (args_api_key args) st) as Hi.
  set (key := or_else (args_api_key args) (getenv w "DUNE_API_KEY")) in *.
  destruct (truthy key); cbn [negb fst snd].
  2:{ eapply runs_bind_raise. exact Hi. }
  set (self := {| self_api_key := fmt key; self_host := _ |}) in *.
  pose proof (fun st' => connect_runs w self st') as Hc.
  cbn [self_api_key self] in Hc.
  destruct (dbapi_connect w (fmt key)) as [msg|]; cbn [fst snd].
  { eapply runs_eq;
      [ run_by ltac:(exact Hi); run_step; eapply runs_bind_raise; apply Hc
      | reflexivity | reflexivity ]. }
  set (connection := TrinoConnection _ _ _ _) in *.
  unfold statement_for.
  destruct (truthy (args_table args)).
  - pose proof (fun st' => list_specific_table_runs w connection
                  (fmt (args_schema args)) (fmt (args_table args)) "dune" st')
      as Hl.
    destruct (server w (executed (events st)) _) as [msg|rows] eqn:S;
      cbn [fst snd].
    + eapply runs_eq;
        [ run_by ltac:(exact Hi); run_step; run_by ltac:(apply Hc);
          eapply runs_bind_raise;
          match goal with
          | Hh : executed (events ?cur) = _ |- runs _ ?cur _ _ =>
              specialize (Hl cur); rewrite Hh, S in Hl; exact Hl
          end
        | reflexivity | reflexivity ].
    + destruct (tables_of_rows rows) as [|t0 rest] eqn:T.
      * eapply runs_eq;
          [ run_by ltac:(exact Hi); run_step; run_by ltac:(apply Hc);
            eapply runs_bind;
            [ match goal with
              | Hh : executed (events ?cur) = _ |- runs _ ?cur _ _ =>
                  specialize (Hl cur); rewrite Hh, S, T in Hl; exact Hl
              end
            | intros; run_straight ]
          | reflexivity
          | unfold after_listing; rewrite andb_false_r; reflexivity ].
      * eapply runs_eq;
          [ run_by ltac:(exact Hi); run_step; run_by ltac:(apply Hc);
            eapply runs_bind;
            [ match goal with
              | Hh : executed (events ?cur) = _ |- runs _ ?cur _ _ =>
                  specialize (Hl cur); rewrite Hh, S, T in Hl; exact Hl
              end
            | intros; apply drop_listed_runs ]
          | reflexivity | reflexivity ].
  - destruct use_pattern.
    + pose proof (fun st' => list_tables_by_pattern_runs w connection
                    schema_or_pattern "dune" st') as Hl.
      destruct (server w (executed (events st)) _) as [msg|rows] eqn:S;
        cbn [fst snd];
        (eapply runs_eq;
         [ run_by ltac:(exact Hi); run_step; run_by ltac:(apply Hc);
           first
             [ eapply runs_bind_raise;
               match goal with
               | Hh : executed (events ?cur) = _ |- runs _ ?cur _ _ =>
                   specialize (Hl cur); rewrite Hh, S in Hl; exact Hl
               end
             | eapply runs_bind;
               [ match goal with
                 | Hh : executed (events ?cur) = _ |- runs _ ?cur _ _ =>
                     specialize (Hl cur); rewrite Hh, S in Hl; exact Hl
                 end
               | intros; apply drop_listed_runs ] ]
         | reflexivity | reflexivity ]).
    + pose proof (fun st' => list_tables_by_schema_runs w connection
                    schema_or_pattern "dune" st') as Hl.
      destruct (server w (executed (events st)) _) as [msg|rows] eqn:S;
        cbn [fst snd];
        (eapply runs_eq;
         [ run_by ltac:(exact Hi); run_step; run_by ltac:(apply Hc);
           first
             [ eapply runs_bind_raise;
               match goal with
               | Hh : executed (events ?cur) = _ |- runs _ ?cur _ _ =>
                   specialize (Hl cur); rewrite Hh, S in Hl; exact Hl
               end
             | eapply runs_bind;
               [ match goal with
                 | Hh : executed (events ?cur) = _ |- runs _ ?cur _ _ =>
                     specialize (Hl cur); rewrite Hh, S in Hl; exact Hl
                 end
               | intros; apply drop_listed_runs ] ]
         | reflexivity | reflexivity ]).
Qed.

Lemma try_behaviour_exception (w : World) (args : Args)
    (is_prod dry_run : bool) (stmt : statement) (hist : list statement)
    (e : exn) :
  fst (try_behaviour w args is_prod dry_run stmt hist) = Raise e ->
  is_Exception e = true.
Proof.
  unfold try_behaviour.
  destruct (negb (truthy (api_key_used w args)));
    [intros [= <-]; reflexivity|].
  destruct (dbapi_connect w _); [intros [= <-]; reflexivity|].
  destruct (server w hist stmt); [intros [= <-]; reflexivity|].
  discriminate.
Qed.

Lemma main_finally_runs st :
  runs (c <- get_dune_conn ;;
        match c with
        | Some self => close self
        | None => ret tt
        end) st (Ok tt) silent.
Proof.
  eapply runs_eq;
    [ eapply runs_bind;
      [ apply runs_get_dune_conn
      | intros; destruct (dune_conn st); [apply close_runs | apply runs_ret] ]
    | reflexivity | reflexivity ].
Qed.

(** The try/except/finally of [main] around its try block. *)
Lemma main_protected_runs (w : World) (args : Args) (is_prod dry_run : bool)
    (schema_or_pattern : string) (use_pattern : bool) st :
  let b := try_behaviour w args is_prod dry_run
             (statement_for args schema_or_pattern use_pattern)
             (executed (events st)) in
  runs (try_finally
          (try_except
             (main_try w args is_prod dry_run schema_or_pattern use_pattern)
             (fun e =>
                log ERROR ("Failed to complete operation: " ++ exn_str e) ;;
                ret 1%Z))
          (c <- get_dune_conn ;;
           match c with
           | Some self => close self
           | None => ret tt
           end)) st
    (Ok (match fst b with Ok code => code | Raise _ => 1%Z end))
    (snd b).
Proof.
  intros b.
  pose proof (main_try_runs w args is_prod dry_run schema_or_pattern
                use_pattern st) as Ht.
  pose proof (@try_behaviour_exception w args is_prod dry_run
                (statement_for args schema_or_pattern use_pattern)
                (executed (events st))) as He.
  fold b in Ht, He.
  destruct b as [[code|e] [[x p] c]]; cbn [fst snd] in *.
  - eapply runs_eq;
      [ eapply runs_try_finally;
        [ eapply runs_try_catch_ok; exact Ht
        | apply main_finally_runs ]
      | reflexivity
      | unfold obs_app, silent; cbn [fst snd];
        rewrite !app_nil_r, Nat.add_0_r; reflexivity ].
  - eapply runs_eq;
      [ eapply runs_try_finally;
        [ eapply runs_try_catch_caught;
          [ exact Ht | apply He; reflexivity | intros; run_straight ]
        | apply main_finally_runs ]
      | reflexivity
      | unfold obs_app, silent; cbn [fst snd];
        rewrite !app_nil_r, !Nat.add_0_r; reflexivity ].
Qed.

Lemma main_runs (w : World) (args : Args) st :
  runs (main w args) st
    (Ok (fst (behaviour w args (executed (events st)))))
    (snd (behaviour w args (executed (events st)))).
Proof.
  unfold main, behaviour, rejected, is_prod_target, listing.
  fold (team_name w).
  pose proof (fun a b c d => @main_protected_runs w args a b c d) as Hp.
  unfold statement_for in Hp.
  assert (Hv : forall st',
             runs (if args_verbose args then
                     emit (SetLevel "root" DEBUG) ;;
                     emit (SetLevel "__main__" DEBUG)
                   else ret tt) st' (Ok tt) silent).
  { intros st'. destruct (args_verbose args); [run_straight | apply runs_ret]. }
  assert (Hd : forall st',
             runs (if negb (args_execute args) then
                     log WARNING (str_mul "=" 80) ;;
                     log WARNING "DRY RUN MODE - No operations will be executed" ;;
                     log WARNING "To execute operations, add the --execute flag" ;;
                     log WARNING (str_mul "=" 80)
                   else ret tt) st' (Ok tt) silent).
  { intros st'. destruct (negb (args_execute args));
      [run_straight | apply runs_ret]. }
  destruct (args_target args), (truthy (args_schema args)),
    (truthy (args_table args));
    cbn [negb andb orb fst snd];
    try solve [ eapply runs_eq;
                [ run_by ltac:(apply Hv); repeat run_step; auto with runs_db
                | reflexivity | reflexivity ] ];
    (eapply runs_eq;
     [ run_by ltac:(apply Hv); run_by ltac:(apply Hd); do 2 run_step;
       match goal with
       | Hh : executed (events ?cur) = _ |- runs _ ?cur _ _ =>
           eapply runs_eq; [ apply Hp
                           | rewrite Hh; reflexivity
                           | rewrite Hh; reflexivity ]
       end
     | destruct (try_behaviour _ _ _ _ _ _) as [[code|e] [[x p] n]];
       reflexivity
     | destruct (try_behaviour _ _ _ _ _ _) as [[code|e] [[x p] n]];
       reflexivity ]).
Qed.

(** A run of [main] from the start of the process: its exit code and what
    it shows. *)
Lemma run_main_behaviour (w : World) (args : Args) :
  value (run_main w args) = Ok (fst (behaviour w args []))
  /\ executed (trace_of (run_main w args)) = fst (fst (snd (behaviour w args [])))
  /\ prompts (trace_of (run_main w args)) = snd (fst (snd (behaviour w args [])))
  /\ connects (trace_of (run_main w args)) = snd (snd (behaviour w args [])).
Proof.
  destruct (main_runs w args initial) as (evs & st' & E & Hev & O).
  cbn [initial events app executed] in E, Hev, O.
  unfold run_main, value, trace_of. rewrite E. cbn [fst snd].
  rewrite Hev. split; [reflexivity|].
  rewrite <- O. unfold observe. cbn [fst snd]. auto.
Qed.

(** * The claims *)

(** ** Quoting and the statement *)

(** C4.  [quote_identifier] raises a [ValueError] exactly on the
    identifiers that hold a double quote, and wraps every other identifier
    in double quotes.  When one of the three identifiers of a table holds
    a double quote, [drop_table_or_view] builds no statement, returns
    [False], and adds to the trace nothing but one error line: nothing is
    sent to the server. *)
Theorem quote_identifier_rejects_double_quotes :
  (forall identifier,
      ((exists msg, quote_identifier identifier = Raise (ValueError msg))
       <-> In dquote (list_ascii_of_string identifier))
      /\ (~ In dquote (list_ascii_of_string identifier) ->
          quote_identifier identifier
          = Ok (String dquote (identifier ++ String dquote EmptyString))))
  /\ (forall w connection schema table_name table_type catalog dry_run st,
         In dquote (list_ascii_of_string catalog)
         \/ In dquote (list_ascii_of_string schema)
         \/ In dquote (list_ascii_of_string table_name) ->
         let r := drop_table_or_view w connection schema table_name
                    table_type catalog dry_run st in
         (exists e, drop_statement catalog schema table_name table_type
                    = Raise e)
         /\ value r = Ok false
         /\ (exists msg, trace_of r = (events st ++ [Log ERROR msg])%list)
         /\ executed (trace_of r) = executed (events st)).
Proof.
  split.
  - intros identifier. rewrite <- contains_char_In. split.
    + unfold quote_identifier.
      destruct (contains_char dquote identifier) eqn:C.
      * split; [intros _; reflexivity | intros _; eexists; reflexivity].
      * split; [intros [msg H]; discriminate | discriminate].
    + intros H. apply quote_identifier_ok.
      destruct (contains_char dquote identifier); [contradiction H|];
        reflexivity.
  - intros w connection schema table_name table_type catalog dry_run st H r.
    assert (V : valid_identifiers catalog schema table_name = false).
    { unfold valid_identifiers. rewrite <- !contains_char_In in H.
      destruct H as [H | [H | H]]; rewrite H; cbn;
        rewrite ?andb_false_r; reflexivity. }
    destruct (drop_statement_invalid _ _ _ table_type V) as [msg E].
    subst r. unfold drop_table_or_view. rewrite E.
    unfold value, trace_of, bind, log, emit, ret. cbn [fst snd events].
    split; [eexists; reflexivity|]. split; [reflexivity|].
    split; [eexists; reflexivity|].
    rewrite executed_app. apply app_nil_r.
Qed.

(** C6.  For identifiers without double quotes the statement is
    [drop view if exists] for the table type [VIEW] and
    [drop table if exists] for every other type, followed by the catalog,
    the schema and the table, each between double quotes, joined by dots;
    outside dry-run mode it is this statement, without parameters, that
    the call sends to the server. *)
Theorem drop_statement_text :
  forall catalog schema table_name table_type,
    valid_identifiers catalog schema table_name = true ->
    let target_name :=
      String dquote (catalog ++ String dquote EmptyString) ++ "."
        ++ String dquote (schema ++ String dquote EmptyString) ++ "."
        ++ String dquote (table_name ++ String dquote EmptyString) in
    (table_type = "VIEW" ->
     drop_statement catalog schema table_name table_type
     = Ok ("drop view if exists " ++ target_name))
    /\ (table_type <> "VIEW" ->
        drop_statement catalog schema table_name table_type
        = Ok ("drop table if exists " ++ target_name))
    /\ (forall w connection st stmt,
           drop_statement catalog schema table_name table_type = Ok stmt ->
           executed (trace_of (drop_table_or_view w connection schema
                                 table_name table_type catalog false st))
           = (executed (events st) ++ [(stmt, [])])%list).
Proof.
  intros catalog schema table_name table_type V target_name.
  pose proof (drop_statement_valid _ _ _ table_type V) as E.
  fold (quoted catalog) (quoted schema) (quoted table_name) in target_name.
  repeat split.
  - intros ->. exact E.
  - intros H. rewrite E, (string_eqb_false H). reflexivity.
  - intros w connection st stmt Hs.
    destruct (drop_table_or_view_run w connection schema table_name
                table_type catalog false st)
      as (evs & st' & Er & [Hev _] & X & _).
    unfold trace_of. rewrite Er. cbn [snd].
    rewrite Hev, executed_app, X. unfold sent. rewrite Hs. reflexivity.
Qed.

(** ** Dry runs *)

Lemma sent_dry_run (schema table_name table_type catalog : string) :
  sent schema table_name table_type catalog true = [].
Proof.
  unfold sent.
  destruct (drop_statement catalog schema table_name table_type); reflexivity.
Qed.

Lemma flat_map_sent_dry_run (catalog : string) (tables : list table) :
  flat_map (sent_for catalog true) tables = [].
Proof.
  induction tables as [|t rest IH]; cbn [flat_map]; [reflexivity|].
  unfold sent_for at 1. rewrite sent_dry_run, IH. reflexivity.
Qed.

(** C2, as the code has it.  In dry-run mode a call of
    [drop_table_or_view] sends nothing to the server; it returns [True]
    when none of the three identifiers holds a double quote and [False]
    when one does.  A run of [main] without [--execute] sends the server
    at most its one metadata query. *)
Theorem dry_run_executes_nothing :
  forall w connection schema table_name table_type catalog st args,
    (let r := drop_table_or_view w connection schema table_name table_type
                catalog true st in
     value r = Ok (valid_identifiers catalog schema table_name)
     /\ executed (trace_of r) = executed (events st))
    /\ (args_execute args = false ->
        executed (trace_of (run_main w args)) = []
        \/ executed (trace_of (run_main w args)) = [listing w args]).
Proof.
  intros w connection schema table_name table_type catalog st args. split.
  - destruct (drop_table_or_view_run w connection schema table_name
                table_type catalog true st)
      as (evs & st' & E & [Hev _] & X & _).
    cbv zeta. unfold value, trace_of. rewrite E. cbn [fst snd]. split.
    + unfold outcome.
      destruct (valid_identifiers catalog schema table_name) eqn:V.
      * rewrite (drop_statement_valid _ _ _ table_type V). reflexivity.
      * destruct (drop_statement_invalid _ _ _ table_type V) as [msg ->].
        reflexivity.
    + rewrite Hev, executed_app, X, sent_dry_run. apply app_nil_r.
  - intros Hx.
    destruct (run_main_behaviour w args) as (_ & -> & _).
    unfold behaviour, try_behaviour, after_listing. rewrite Hx.
    cbn [negb]. rewrite andb_false_r. cbn [andb].
    destruct (rejected args); [left; reflexivity|].
    destruct (negb (truthy (api_key_used w args))); [left; reflexivity|].
    destruct (dbapi_connect w _); [left; reflexivity|].
    destruct (server w [] (listing w args)); [right; reflexivity|].
    right. cbn [fst snd obs_app]. rewrite flat_map_sent_dry_run. reflexivity.
Qed.

(** ** The summary of drop_tables *)

(** C5.  For every list of tables, the empty one included, [drop_tables]
    returns a summary whose [success] and [failed] add up to [total], and
    [total] is the length of the list. *)
Theorem drop_tables_summary_adds_up :
  forall w connection tables catalog dry_run st,
  exists sm,
    value (drop_tables w connection tables catalog dry_run st) = Ok sm
    /\ success sm + failed sm = total sm
    /\ total sm = length tables.
Proof.
  intros w connection tables catalog dry_run st.
  destruct (drop_tables_run w connection catalog dry_run tables st)
    as (evs & st' & E & _).
  eexists. unfold value. rewrite E. cbn [fst].
  split; [reflexivity|]. cbn [total success failed].
  split; [|reflexivity].
  rewrite count_true_false. apply outcomes_length.
Qed.

Lemma drop_loop_app (w : World) (connection : Connection) (catalog : string)
    (dry_run : bool) (before after : list table) :
  forall sc fc st,
    drop_loop w connection (before ++ after) catalog dry_run sc fc st
    = match drop_loop w connection before catalog dry_run sc fc st with
      | (Ok (sc1, fc1), st1) =>
          drop_loop w connection after catalog dry_run sc1 fc1 st1
      | (Raise e, st1) => (Raise e, st1)
      end.
Proof.
  induction before as [|t rest IH]; intros sc fc st.
  - reflexivity.
  - cbn [app drop_loop]. unfold bind.
    destruct (drop_table_or_view w connection (t_schema t) (t_name t)
                (t_type t) catalog dry_run st) as [[[|]|e] st1];
      [apply IH | apply IH | reflexivity].
Qed.

(** C7.  A call of [drop_table_or_view] that returns [False] does not end
    the loop: the loop goes on with the tables after it, one more failure
    counted.  So [drop_tables] always returns its summary; [failed] in it
    is the number of calls that returned [False]; every table of the list
    has its attempt in the trace; and outside dry-run mode the server has
    received, in order, the statement of every table whose identifiers are
    valid. *)
Theorem failed_drop_does_not_stop_loop :
  forall w connection catalog dry_run,
    (forall before t after sc fc st sc1 fc1 st1 st2,
        drop_loop w connection before catalog dry_run sc fc st
        = (Ok (sc1, fc1), st1) ->
        drop_table_or_view w connection (t_schema t) (t_name t) (t_type t)
          catalog dry_run st1 = (Ok false, st2) ->
        drop_loop w connection (before ++ t :: after) catalog dry_run sc fc st
        = drop_loop w connection after catalog dry_run sc1 (fc1 + 1) st2)
    /\ (forall tables st,
           let r := drop_tables w connection tables catalog dry_run st in
           exists sm,
             value r = Ok sm
             /\ failed sm
                = count false (outcomes w catalog dry_run
                                 (executed (events st)) tables)
             /\ (forall t, In t tables -> In (attempt_of catalog t) (trace_of r))
             /\ executed (trace_of r)
                = (executed (events st)
                     ++ flat_map (sent_for catalog dry_run) tables)%list).
Proof.
  intros w connection catalog dry_run. split.
  - intros before t after sc fc st sc1 fc1 st1 st2 Hb Ht.
    rewrite drop_loop_app, Hb. cbn [drop_loop]. unfold bind at 1.
    rewrite Ht. reflexivity.
  - intros tables st r.
    destruct (drop_tables_run w connection catalog dry_run tables st)
      as (evs & st' & E & [Hev _] & X & _ & _ & I).
    subst r. eexists. unfold value, trace_of. rewrite E.
    cbn [fst snd]. split; [reflexivity|]. cbn [failed].
    split; [reflexivity|].
    rewrite Hev. split.
    + intros t Hin. apply in_or_app. right. apply I, Hin.
    + rewrite executed_app, X. reflexivity.
Qed.

(** ** The validations of main *)

Lemma rejected_behaviour (w : World) (args : Args) :
  rejected args = true ->
  value (run_main w args) = Ok 1%Z
  /\ connects (trace_of (run_main w args)) = 0
  /\ executed (trace_of (run_main w args)) = []
  /\ prompts (trace_of (run_main w args)) = [].
Proof.
  intros R. destruct (run_main_behaviour w args) as (-> & -> & -> & ->).
  unfold behaviour. rewrite R. repeat split.
Qed.

(** C3.  With the target prod and [--schema] or [--table] absent, [main]
    returns 1; no connection has been opened and no statement, metadata
    query included, has been sent. *)
Theorem prod_requires_schema_and_table :
  forall w args,
    args_target args = prod ->
    args_schema args = None \/ args_table args = None ->
    value (run_main w args) = Ok 1%Z
    /\ connects (trace_of (run_main w args)) = 0
    /\ executed (trace_of (run_main w args)) = [].
Proof.
  intros w args Ht Habsent.
  destruct (@rejected_behaviour w args) as (Hv & Hc & Hx & _); [|auto].
  unfold rejected, is_prod_target. rewrite Ht.
  destruct Habsent as [-> | ->]; cbn [truthy negb andb orb];
    rewrite ?orb_true_r; reflexivity.
Qed.

(** C8, as the code has it.  With a non-empty [--table] and [--schema]
    absent or empty, [main] returns 1 for either target; no connection has
    been opened and no statement has been sent. *)
Theorem table_requires_schema :
  forall w args,
    truthy (args_table args) = true ->
    truthy (args_schema args) = false ->
    value (run_main w args) = Ok 1%Z
    /\ connects (trace_of (run_main w args)) = 0
    /\ executed (trace_of (run_main w args)) = [].
Proof.
  intros w args Ht Hs.
  destruct (@rejected_behaviour w args) as (Hv & Hc & Hx & _); [|auto].
  unfold rejected. rewrite Ht, Hs. reflexivity.
Qed.

(** ** The listing and the prompt *)

Lemma tables_of_rows_nil (rows : list row) :
  tables_of_rows rows = [] -> rows = [].
Proof. destruct rows; [reflexivity | discriminate]. Qed.

(** C10.  When [main] gets as far as [list_specific_table] (a non-empty
    [--table] and [--schema], an API key, a connection) and that call,
    made to a server that has received nothing yet, returns the empty
    list, [main] returns 0; the metadata query is the only statement the
    server has received, and nothing was asked of the user. *)
Theorem missing_table_exits_without_drop :
  forall w args connection st,
    truthy (args_table args) = true ->
    truthy (args_schema args) = true ->
    truthy (api_key_used w args) = true ->
    dbapi_connect w (fmt (api_key_used w args)) = None ->
    executed (events st) = [] ->
    value (list_specific_table w connection (fmt (args_schema args))
             (fmt (args_table args)) "dune" st) = Ok [] ->
    value (run_main w args) = Ok 0%Z
    /\ executed (trace_of (run_main w args))
       = [(query_specific_table,
           ["dune"; fmt (args_schema args); fmt (args_table args)])]
    /\ prompts (trace_of (run_main w args)) = [].
Proof.
  intros w args connection st Ht Hs Hk Hc Hst Hl.
  assert (S : server w [] (query_specific_table,
                           ["dune"; fmt (args_schema args);
                            fmt (args_table args)]) = inr []).
  { destruct (list_specific_table_runs w connection
                (fmt (args_schema args)) (fmt (args_table args)) "dune" st)
      as (evs & st' & E & _).
    unfold value in Hl. rewrite E, Hst in Hl. cbn [fst] in Hl.
    destruct (server w [] _) as [msg|rows]; [discriminate|].
    injection Hl as Hl. rewrite (tables_of_rows_nil _ Hl). reflexivity. }
  destruct (run_main_behaviour w args) as (-> & -> & -> & _).
  unfold behaviour, rejected, try_behaviour, listing, after_listing.
  rewrite Ht, Hs, Hk, Hc, S. cbn [negb andb orb].
  rewrite andb_false_r. cbn [tables_of_rows map length Nat.eqb negb].
  rewrite andb_false_r. repeat split.
Qed.

(** When the prompt is shown: the target is prod, [--execute] was given,
    the one table asked for was found, and what happens next hangs on the
    answer alone. *)
Lemma prompt_shown (w : World) (args : Args) :
  prompts (trace_of (run_main w args)) <> [] ->
  args_target args = prod
  /\ args_execute args = true
  /\ listing w args
     = (query_specific_table,
        ["dune"; fmt (args_schema args); fmt (args_table args)])
  /\ exists rows,
      server w [] (listing w args) = inr rows
      /\ rows <> []
      /\ behaviour w args []
         = (0%Z,
            if confirmed w
            then (listing w args
                    :: flat_map (sent_for "dune" false) (tables_of_rows rows),
                  [confirmation_prompt], 1)
            else ([listing w args], [confirmation_prompt], 1)).
Proof.
  destruct (run_main_behaviour w args) as (_ & _ & -> & _).
  unfold behaviour, try_behaviour, after_listing.
  destruct (rejected args) eqn:R; [intros H; contradiction H; reflexivity|].
  destruct (negb (truthy (api_key_used w args)));
    [intros H; contradiction H; reflexivity|].
  destruct (dbapi_connect w _); [intros H; contradiction H; reflexivity|].
  destruct (server w [] (listing w args)) as [msg|rows];
    [intros H; contradiction H; reflexivity|].
  destruct (is_prod_target args && negb (negb (args_execute args))
            && negb (length (tables_of_rows rows) =? 0)%nat) eqn:Ask;
    [|intros H; contradiction H; reflexivity].
  intros _.
  apply andb_true_iff in Ask. destruct Ask as [Ask Hn].
  apply andb_true_iff in Ask. destruct Ask as [Hp Hx].
  rewrite negb_involutive in Hx.
  unfold is_prod_target in Hp.
  unfold rejected, is_prod_target in R.
  destruct (args_target args); [discriminate|].
  split; [reflexivity|]. split; [exact Hx|].
  rewrite Hx. cbn [negb].
  assert (Hst : truthy (args_schema args) = true
                /\ truthy (args_table args) = true).
  { destruct (truthy (args_schema args)), (truthy (args_table args));
      try discriminate. auto. }
  destruct Hst as [Hs Htb].
  split; [unfold listing; rewrite Htb; reflexivity|].
  exists rows. split; [reflexivity|]. split.
  - intros ->. discriminate.
  - destruct (confirmed w); reflexivity.
Qed.

(** C9.  The prompt is shown only when the target is prod, [--execute]
    was given and the listing returned at least one table.  In particular
    a prod run without [--execute] and a run whose listing is empty show
    no prompt. *)
Theorem prompt_only_for_prod_execute_nonempty :
  forall w args,
    (prompts (trace_of (run_main w args)) <> [] ->
     args_target args = prod
     /\ args_execute args = true
     /\ exists rows,
         server w [] (listing w args) = inr rows /\ rows <> [])
    /\ (args_target args = prod -> args_execute args = false ->
        prompts (trace_of (run_main w args)) = [])
    /\ (server w [] (listing w args) = inr [] ->
        prompts (trace_of (run_main w args)) = []).
Proof.
  intros w args.
  assert (H1 : prompts (trace_of (run_main w args)) <> [] ->
               args_target args = prod
               /\ args_execute args = true
               /\ exists rows,
                   server w [] (listing w args) = inr rows /\ rows <> []).
  { intros H. destruct (@prompt_shown w args H) as (Ht & Hx & _ & rows & S & N & _).
    eauto. }
  split; [exact H1|]. split.
  - intros _ Hx.
    destruct (prompts (trace_of (run_main w args))) eqn:P; [reflexivity|].
    destruct H1 as (_ & Hx' & _); [discriminate | congruence].
  - intros S.
    destruct (prompts (trace_of (run_main w args))) eqn:P; [reflexivity|].
    destruct H1 as (_ & _ & rows & S' & N); [discriminate|].
    rewrite S in S'. injection S' as <-. contradiction N. reflexivity.
Qed.


(** * The claims on concrete runs *)

Section ConcreteRuns.

Import Examples.



(** C2 as stated fails: in dry-run mode a table whose name holds a
    double quote makes [drop_table_or_view] return [False]. *)
Lemma dry_run_returns_false_on_bad_identifier :
  In dquote (list_ascii_of_string bad_name)
  /\ value (drop_table_or_view (world [] Eof) connection "dune" bad_name
              "BASE TABLE" "dune" true initial) = Ok false.
Proof.
  split; [right; left; reflexivity | vm_compute; reflexivity].
Qed.

Lemma dry_run_executes_nothing_witness :
  args_execute dev_default = false
  /\ (executed (trace_of (run_main (world [orders] Eof) dev_default)) = []
      \/ executed (trace_of (run_main (world [orders] Eof) dev_default))
         = [listing (world [orders] Eof) dev_default]).
Proof.
  split; [reflexivity|].
  apply (proj2 (@dry_run_executes_nothing (world [orders] Eof) connection
                  "dune" "orders" "BASE TABLE" "dune" initial dev_default)).
  reflexivity.
Defined.

Lemma prod_requires_schema_and_table_witness :
  args_target prod_no_schema = prod
  /\ args_schema prod_no_schema = None
  /\ value (run_main (world [orders] Eof) prod_no_schema) = Ok 1%Z
  /\ connects (trace_of (run_main (world [orders] Eof) prod_no_schema)) = 0
  /\ executed (trace_of (run_main (world [orders] Eof) prod_no_schema)) = [].
Proof.
  split; [reflexivity|]. split; [reflexivity|].
  apply (@prod_requires_schema_and_table (world [orders] Eof)
           prod_no_schema).
  - reflexivity.
  - left. reflexivity.
Defined.

Lemma quote_identifier_rejects_double_quotes_witness :
  In dquote (list_ascii_of_string bad_name)
  /\ value (drop_table_or_view (world [] Eof) connection "dune" bad_name
              "BASE TABLE" "dune" false initial) = Ok false
  /\ executed (trace_of (drop_table_or_view (world [] Eof) connection "dune"
                           bad_name "BASE TABLE" "dune" false initial))
     = [].
Proof.
  assert (H : In dquote (list_ascii_of_string bad_name))
    by (right; left; reflexivity).
  split; [exact H|].
  destruct (proj2 quote_identifier_rejects_double_quotes (world [] Eof)
              connection "dune" bad_name "BASE TABLE" "dune" false initial
              (or_intror (or_intror H)))
    as (_ & Hv & _ & Hx).
  split; [exact Hv | exact Hx].
Defined.

Lemma drop_statement_text_witness :
  valid_identifiers "dune" "dune" "orders" = true
  /\ drop_statement "dune" "dune" "orders" "BASE TABLE"
     = Ok (fst drop_orders)
  /\ drop_statement "dune" "dune" "daily" "VIEW"
     = Ok ("drop view if exists " ++ quoted "dune" ++ "." ++ quoted "dune"
             ++ "." ++ quoted "daily").
Proof.
  split; [reflexivity|]. split.
  - apply (@drop_statement_text "dune" "dune" "orders" "BASE TABLE");
      [reflexivity | discriminate].
  - apply (@drop_statement_text "dune" "dune" "daily" "VIEW");
      reflexivity.
Defined.

Lemma failed_drop_does_not_stop_loop_witness :
  drop_table_or_view (world [] Eof) connection "dune" bad_name "BASE TABLE"
    "dune" false initial
  = (Ok false,
     snd (drop_table_or_view (world [] Eof) connection "dune" bad_name
            "BASE TABLE" "dune" false initial))
  /\ drop_loop (world [] Eof) connection ([] ++ bad_table :: [good_table])
       "dune" false 0 0 initial
     = drop_loop (world [] Eof) connection [good_table] "dune" false 0
         (0 + 1)
         (snd (drop_table_or_view (world [] Eof) connection "dune" bad_name
                 "BASE TABLE" "dune" false initial)).
Proof.
  split; [reflexivity|].
  apply (proj1 (@failed_drop_does_not_stop_loop (world [] Eof) connection
                  "dune" false)
           [] bad_table [good_table] 0 0 initial 0 0 initial);
    reflexivity.
Defined.

(** C8 as stated fails: with [--table ''] and no [--schema] the run is
    not turned down; it connects, lists the dev schemas and returns 0. *)
Lemma empty_table_flag_is_not_rejected :
  args_table dev_empty_table = Some ""
  /\ args_schema dev_empty_table = None
  /\ value (run_main (world [orders] Eof) dev_empty_table) = Ok 0%Z
  /\ connects (trace_of (run_main (world [orders] Eof) dev_empty_table)) = 1
  /\ executed (trace_of (run_main (world [orders] Eof) dev_empty_table))
     = [(query_by_pattern, ["dune"; "dune__tmp_%"])].
Proof. repeat split; vm_compute; reflexivity. Qed.

Lemma table_requires_schema_witness :
  truthy (args_table dev_table_no_schema) = true
  /\ truthy (args_schema dev_table_no_schema) = false
  /\ value (run_main (world [orders] Eof) dev_table_no_schema) = Ok 1%Z
  /\ connects (trace_of (run_main (world [orders] Eof) dev_table_no_schema))
     = 0
  /\ executed (trace_of (run_main (world [orders] Eof) dev_table_no_schema))
     = [].
Proof.
  split; [reflexivity|]. split; [reflexivity|].
  apply (@table_requires_schema (world [orders] Eof) dev_table_no_schema);
    reflexivity.
Defined.

Lemma prompt_only_for_prod_execute_nonempty_witness :
  prompts (trace_of (run_main (world [orders] (Line "no")) prod_execute))
    <> []
  /\ args_target prod_execute = prod
  /\ args_execute prod_execute = true
  /\ exists rows,
      server (world [orders] (Line "no")) []
        (listing (world [orders] (Line "no")) prod_execute) = inr rows
      /\ rows <> [].
Proof.
  assert (H : prompts (trace_of (run_main (world [orders] (Line "no"))
                                   prod_execute)) <> [])
    by (vm_compute; discriminate).
  split; [exact H|].
  exact (proj1 (@prompt_only_for_prod_execute_nonempty
                  (world [orders] (Line "no")) prod_execute) H).
Defined.

Lemma missing_table_exits_without_drop_witness :
  value (list_specific_table (world [] Eof) connection "dune" "orders"
           "dune" initial) = Ok []
  /\ value (run_main (world [] Eof) prod_execute) = Ok 0%Z
  /\ executed (trace_of (run_main (world [] Eof) prod_execute))
     = [orders_query]
  /\ prompts (trace_of (run_main (world [] Eof) prod_execute)) = [].
Proof.
  split; [reflexivity|].
  apply (@missing_table_exits_without_drop (world [] Eof) prod_execute
           connection initial); reflexivity.
Defined.

End ConcreteRuns.

(** * Further properties of the script *)

(** ** Exit codes and failures of main *)



(** X2.  Without a non-empty API key, from [--api-key] or from
    [DUNE_API_KEY], [main] returns 1 and has neither connected nor sent a
    statement nor asked anything. *)
Theorem missing_api_key_exits_before_connecting :
  forall w args,
    truthy (args_api_key args) = false ->
    truthy (getenv w "DUNE_API_KEY") = false ->
    value (run_main w args) = Ok 1%Z
    /\ connects (trace_of (run_main w args)) = 0
    /\ executed (trace_of (run_main w args)) = []
    /\ prompts (trace_of (run_main w args)) = [].
Proof.
  intros w args Hf He.
  destruct (run_main_behaviour w args) as (-> & -> & -> & ->).
  unfold behaviour, try_behaviour, api_key_used, or_else.
  rewrite Hf, He. cbn [negb].
  destruct (rejected args); repeat split.
Qed.

(** X3.  When [trino.dbapi.connect] raises, [main] returns 1: it has
    tried to connect once, and has sent no statement and asked nothing. *)
Theorem connection_failure_exits :
  forall w args msg,
    rejected args = false ->
    truthy (api_key_used w args) = true ->
    dbapi_connect w (fmt (api_key_used w args)) = Some msg ->
    value (run_main w args) = Ok 1%Z
    /\ connects (trace_of (run_main w args)) = 1
    /\ executed (trace_of (run_main w args)) = []
    /\ prompts (trace_of (run_main w args)) = [].
Proof.
  intros w args msg Hr Hk Hc.
  destruct (run_main_behaviour w args) as (-> & -> & -> & ->).
  unfold behaviour, try_behaviour. rewrite Hr, Hk, Hc. repeat split.
Qed.

(** X4.  When the metadata query fails, [main] returns 1; the query is
    the only statement sent, so nothing was dropped, and nothing was
    asked. *)
Theorem listing_failure_exits :
  forall w args msg,
    rejected args = false ->
    truthy (api_key_used w args) = true ->
    dbapi_connect w (fmt (api_key_used w args)) = None ->
    server w [] (listing w args) = inl msg ->
    value (run_main w args) = Ok 1%Z
    /\ executed (trace_of (run_main w args)) = [listing w args]
    /\ prompts (trace_of (run_main w args)) = [].
Proof.
  intros w args msg Hr Hk Hc Hs.
  destruct (run_main_behaviour w args) as (-> & -> & -> & _).
  unfold behaviour, try_behaviour. rewrite Hr, Hk, Hc, Hs. repeat split.
Qed.


(** ** What main sends to the server *)

(** The statements of a run: none, or the metadata query alone, or the
    metadata query and then the drops of the tables it listed. *)
Lemma executed_shape (w : World) (args : Args) :
  executed (trace_of (run_main w args)) = []
  \/ executed (trace_of (run_main w args)) = [listing w args]
  \/ exists rows,
      rejected args = false
      /\ server w [] (listing w args) = inr rows
      /\ executed (trace_of (run_main w args))
         = listing w args
             :: flat_map (sent_for "dune" (negb (args_execute args)))
                  (tables_of_rows rows).
Proof.
  destruct (run_main_behaviour w args) as (_ & -> & _).
  unfold behaviour, try_behaviour, after_listing.
  destruct (rejected args); [left; reflexivity|].
  destruct (negb (truthy (api_key_used w args))); [left; reflexivity|].
  destruct (dbapi_connect w _); [left; reflexivity|].
  destruct (server w [] (listing w args)) as [msg|rows];
    [right; left; reflexivity|].
  destruct (is_prod_target args && negb (negb (args_execute args))
            && negb (length (tables_of_rows rows) =? 0)%nat).
  - destruct (confirmed w); [|right; left; reflexivity].
    right. right. exists rows. repeat split; reflexivity.
  - right. right. exists rows. repeat split; reflexivity.
Qed.

Lemma in_sent_for (catalog : string) (dry_run : bool) (t : table)
    (stmt : statement) :
  In stmt (sent_for catalog dry_run t) ->
  dry_run = false
  /\ drop_statement catalog (t_schema t) (t_name t) (t_type t)
     = Ok (fst stmt)
  /\ snd stmt = [].
Proof.
  unfold sent_for, sent.
  destruct (drop_statement catalog (t_schema t) (t_name t) (t_type t));
    [|contradiction].
  destruct dry_run; [contradiction|].
  intros [<- | []]. repeat split.
Qed.

(** X6.  Whatever [main] sends to the server is its metadata query or
    the drop statement, in the catalog [dune] and without parameters, of
    a table that this query listed; and drops are sent only under
    [--execute]. *)
Theorem main_drops_only_listed_tables :
  forall w args stmt,
    In stmt (executed (trace_of (run_main w args))) ->
    stmt = listing w args
    \/ (args_execute args = true
        /\ exists rows t,
            server w [] (listing w args) = inr rows
            /\ In t (tables_of_rows rows)
            /\ drop_statement "dune" (t_schema t) (t_name t) (t_type t)
               = Ok (fst stmt)
            /\ snd stmt = []).
Proof.
  intros w args stmt Hin.
  destruct (executed_shape w args) as [E | [E | (rows & _ & S & E)]];
    rewrite E in Hin.
  - contradiction.
  - destruct Hin as [<- | []]. left. reflexivity.
  - destruct Hin as [<- | Hin]; [left; reflexivity|]. right.
    apply in_flat_map in Hin. destruct Hin as (t & Ht & Hs).
    destruct (in_sent_for _ _ _ _ Hs) as (Hd & Hq & Hp).
    split; [destruct (args_execute args); [reflexivity | discriminate]|].
    exists rows, t. auto.
Qed.

Lemma first_statement_is_listing (w : World) (args : Args)
    (stmt : statement) (rest : list statement) :
  executed (trace_of (run_main w args)) = stmt :: rest ->
  rejected args = false /\ stmt = listing w args.
Proof.
  intros E. split.
  - destruct (rejected args) eqn:R; [|reflexivity].
    destruct (@rejected_behaviour w args R) as (_ & _ & Hx & _).
    rewrite Hx in E. discriminate.
  - destruct (executed_shape w args) as [E' | [E' | (rows & _ & _ & E')]];
      rewrite E' in E; [discriminate | |]; injection E as <- _; reflexivity.
Qed.

(** X7.  The first statement of a run is a listing whose text is one of
    two constants of the script, the query for one table or the [LIKE]
    query: what the user passes travels in the parameters only, and the
    query of [list_tables_by_schema] is never sent first. *)
Theorem metadata_query_text_is_fixed :
  forall w args stmt rest,
    executed (trace_of (run_main w args)) = stmt :: rest ->
    stmt = listing w args
    /\ (fst stmt = query_specific_table \/ fst stmt = query_by_pattern).
Proof.
  intros w args stmt rest E.
  destruct (first_statement_is_listing w args E) as [Hr Hs].
  split; [exact Hs|]. subst stmt.
  unfold rejected, is_prod_target in Hr. unfold listing.
  destruct (truthy (args_table args)); [left; reflexivity|].
  destruct (truthy (args_schema args)); [right; reflexivity|].
  destruct (args_target args); [right; reflexivity | discriminate].
Qed.

(** X8.  A dev run without [--schema] and [--table] lists by the pattern
    [<team>__tmp_%] in the catalog [dune], where [<team>] is
    [DUNE_TEAM_NAME] and [dune] when that variable is unset. *)
Theorem dev_default_lists_tmp_schemas :
  forall w args stmt rest,
    args_target args = dev ->
    truthy (args_schema args) = false ->
    truthy (args_table args) = false ->
    executed (trace_of (run_main w args)) = stmt :: rest ->
    stmt = (query_by_pattern,
            ["dune";
             match getenv w "DUNE_TEAM_NAME" with
             | Some team => team
             | None => "dune"
             end ++ "__tmp_%"]).
Proof.
  intros w args stmt rest Ht Hs Htb E.
  destruct (first_statement_is_listing w args E) as [_ ->].
  unfold listing, team_name. rewrite Ht, Hs, Htb. reflexivity.
Qed.

(** X9.  With [--schema] and no [--table] the value of [--schema] is
    matched with [LIKE], for either target that gets this far: the
    listing is the pattern query with the schema as its pattern. *)
Theorem schema_alone_is_a_like_pattern :
  forall w args schema stmt rest,
    args_schema args = Some schema ->
    schema <> "" ->
    truthy (args_table args) = false ->
    executed (trace_of (run_main w args)) = stmt :: rest ->
    stmt = (query_by_pattern, ["dune"; schema]).
Proof.
  intros w args schema stmt rest Hs Hne Htb E.
  destruct (first_statement_is_listing w args E) as [_ ->].
  unfold listing. rewrite Htb, Hs.
  destruct schema; [contradiction Hne; reflexivity | reflexivity].
Qed.


(** ** Statements name one table *)

Lemma quoted_app (identifier rest : string) :
  quoted identifier ++ rest = String dquote (identifier ++ String dquote rest).
Proof.
  unfold quoted. cbn [append]. f_equal.
  induction identifier as [|c identifier IH]; cbn [append];
    [reflexivity | rewrite IH; reflexivity].
Qed.

(** Two strings cut at their first double quote agree part by part. *)
Lemma cut_at_first_quote (a : string) :
  forall b rest rest',
    contains_char dquote a = false ->
    contains_char dquote b = false ->
    a ++ String dquote rest = b ++ String dquote rest' ->
    a = b /\ rest = rest'.
Proof.
  induction a as [|c a IH]; intros [|d b] rest rest' Ha Hb E;
    cbn [append contains_char] in *.
  - injection E as <-. auto.
  - injection E as <- _. rewrite Ascii.eqb_refl in Hb. discriminate.
  - injection E as -> _. rewrite Ascii.eqb_refl in Ha. discriminate.
  - apply orb_false_iff in Ha, Hb. destruct Ha as [_ Ha], Hb as [_ Hb].
    injection E as <- E. destruct (IH b rest rest' Ha Hb E) as [<- <-]. auto.
Qed.

Lemma append_cancel_l (p a b : string) : p ++ a = p ++ b -> a = b.
Proof.
  induction p as [|c p IH]; cbn [append]; intros E;
    [exact E | injection E as E; auto].
Qed.

Lemma Ok_inj {A} (a b : A) : Ok a = Ok b -> a = b.
Proof. intros [= E]. exact E. Qed.

(** X11.  For identifiers without double quotes the statement tells the
    table: two calls that build the same statement were given the same
    catalog, schema and table name, and agree on whether the object is a
    view. *)
Theorem drop_statement_names_one_table :
  forall catalog schema table_name table_type
         catalog' schema' table_name' table_type',
    valid_identifiers catalog schema table_name = true ->
    valid_identifiers catalog' schema' table_name' = true ->
    drop_statement catalog schema table_name table_type
    = drop_statement catalog' schema' table_name' table_type' ->
    catalog = catalog' /\ schema = schema' /\ table_name = table_name'
    /\ (table_type =? "VIEW") = (table_type' =? "VIEW").
Proof.
  intros c s t ty c' s' t' ty' V V' E.
  rewrite (drop_statement_valid _ _ _ ty V),
    (drop_statement_valid _ _ _ ty' V'), !quoted_app in E.
  apply Ok_inj in E.
  unfold valid_identifiers in V, V'.
  apply andb_true_iff in V, V'. destruct V as [V Vt], V' as [V' Vt'].
  apply andb_true_iff in V, V'. destruct V as [Vc Vs], V' as [Vc' Vs'].
  apply negb_true_iff in Vc, Vs, Vt, Vc', Vs', Vt'.
  assert (Hk : (ty =? "VIEW") = (ty' =? "VIEW")
               /\ String dquote (c ++ String dquote
                    ("." ++ String dquote (s ++ String dquote
                       ("." ++ quoted t))))
                  = String dquote (c' ++ String dquote
                      ("." ++ String dquote (s' ++ String dquote
                         ("." ++ quoted t'))))).
  { destruct (ty =? "VIEW"), (ty' =? "VIEW");
      first [ split; [reflexivity | exact (append_cancel_l _ _ _ E)]
            | cbn [append] in E; discriminate E ]. }
  destruct Hk as [Hk E']. injection E' as E'.
  destruct (@cut_at_first_quote c c' _ _ Vc Vc' E') as [<- E2].
  cbn [append] in E2. injection E2 as E2.
  destruct (@cut_at_first_quote s s' _ _ Vs Vs' E2) as [<- E3].
  cbn [append] in E3. unfold quoted in E3. injection E3 as E3.
  destruct (@cut_at_first_quote t t' _ _ Vt Vt' E3) as [<- _].
  auto.
Qed.

(** ** The summary, case by case *)

Lemma outcome_dry_run (w : World)
    (schema table_name table_type catalog : string)
    (hist : list statement) :
  outcome w schema table_name table_type catalog true hist
  = valid_identifiers catalog schema table_name.
Proof.
  unfold outcome.
  destruct (valid_identifiers catalog schema table_name) eqn:V.
  - rewrite (drop_statement_valid _ _ _ table_type V). reflexivity.
  - destruct (drop_statement_invalid _ _ _ table_type V) as [msg ->].
    reflexivity.
Qed.

Lemma outcomes_dry_run (w : World) (catalog : string) (tables : list table) :
  forall hist,
    outcomes w catalog true hist tables = map (valid_table catalog) tables.
Proof.
  induction tables as [|t rest IH]; intros hist; cbn [outcomes map];
    [reflexivity|].
  rewrite outcome_dry_run, IH. reflexivity.
Qed.

Lemma count_map {A} (f : A -> bool) (l : list A) :
  count true (map f l) = length (filter f l)
  /\ count false (map f l) = length (filter (fun a => negb (f a)) l).
Proof.
  unfold count. induction l as [|a l [IH1 IH2]]; cbn [map filter];
    [auto|].
  destruct (f a); cbn [Bool.eqb negb length]; rewrite ?IH1, ?IH2; auto.
Qed.

(** X12.  In dry-run mode the summary of [drop_tables] depends on the
    identifiers alone: [success] counts the tables whose identifiers are
    free of double quotes, [failed] the others. *)
Theorem dry_run_summary_counts_valid_tables :
  forall w connection tables catalog st,
    value (drop_tables w connection tables catalog true st)
    = Ok {| total := length tables;
            success := length (filter (valid_table catalog) tables);
            failed := length (filter (fun t => negb (valid_table catalog t))
                                tables) |}.
Proof.
  intros w connection tables catalog st.
  destruct (drop_tables_run w connection catalog true tables st)
    as (evs & st' & E & _).
  unfold value. rewrite E. cbn [fst].
  rewrite outcomes_dry_run.
  destruct (count_map (valid_table catalog) tables) as [-> ->].
  reflexivity.
Qed.

Lemma outcomes_all_accepted (w : World) (catalog : string) (dry_run : bool)
    (tables : list table) :
  (forall t, In t tables -> valid_table catalog t = true) ->
  (forall hist stmt, exists rows, server w hist stmt = inr rows) ->
  forall hist,
    outcomes w catalog dry_run hist tables = map (fun _ => true) tables.
Proof.
  intros Hv Hs.
  induction tables as [|t rest IH]; intros hist; cbn [outcomes map];
    [reflexivity|].
  rewrite IH by (intros t' Ht'; apply Hv; right; exact Ht').
  f_equal. unfold outcome.
  specialize (Hv t (or_introl eq_refl)). unfold valid_table in Hv.
  rewrite (drop_statement_valid _ _ _ (t_type t) Hv).
  destruct dry_run; [reflexivity|].
  match goal with
  | |- context [server w hist ?stmt] =>
      destruct (Hs hist stmt) as [rows ->]
  end.
  reflexivity.
Qed.

Lemma filter_all {A} (l : list A) :
  length (filter (fun _ => true) l) = length l.
Proof. induction l; cbn [filter length]; auto. Qed.

Lemma filter_none {A} (l : list A) :
  length (filter (fun _ => false) l) = 0.
Proof. induction l; cbn [filter length]; auto. Qed.

(** X13.  When every table has valid identifiers and the server accepts
    every statement, [drop_tables] reports every table as a success and
    none as failed. *)
Theorem summary_all_success_when_server_accepts :
  forall w connection tables catalog dry_run st,
    (forall t, In t tables -> valid_table catalog t = true) ->
    (forall hist stmt, exists rows, server w hist stmt = inr rows) ->
    value (drop_tables w connection tables catalog dry_run st)
    = Ok {| total := length tables; success := length tables; failed := 0 |}.
Proof.
  intros w connection tables catalog dry_run st Hv Hs.
  destruct (drop_tables_run w connection catalog dry_run tables st)
    as (evs & st' & E & _).
  unfold value. rewrite E. cbn [fst].
  rewrite (outcomes_all_accepted w catalog dry_run tables Hv Hs).
  destruct (count_map (fun _ : table => true) tables) as [-> ->].
  cbn [negb]. rewrite filter_all, filter_none. reflexivity.
Qed.

(** X14.  An exception of [cursor.execute] does not leave
    [drop_table_or_view]: the statement has been sent, and the call
    returns [False]. *)
Theorem driver_error_is_caught :
  forall w connection schema table_name table_type catalog st stmt msg,
    drop_statement catalog schema table_name table_type = Ok stmt ->
    server w (executed (events st)) (stmt, []) = inl msg ->
    let r := drop_table_or_view w connection schema table_name table_type
               catalog false st in
    value r = Ok false
    /\ executed (trace_of r) = (executed (events st) ++ [(stmt, [])])%list.
Proof.
  intros w connection schema table_name table_type catalog st stmt msg Hd Hs r.
  destruct (drop_table_or_view_run w connection schema table_name table_type
              catalog false st) as (evs & st' & E & [Hev _] & X & _).
  subst r. unfold value, trace_of. rewrite E. cbn [fst snd].
  unfold outcome, sent in *. rewrite Hd in *. rewrite Hs.
  split; [reflexivity|]. rewrite Hev, executed_app, X. reflexivity.
Qed.

(** ** The protocol of the driver *)

Section Protocol.

Variable w : World.

Lemma protocol_app (s : pstate) (t1 t2 : trace) :
  protocol w s (t1 ++ t2)%list
  = match protocol w s t1 with
    | Some s1 => protocol w s1 t2
    | None => None
    end.
Proof.
  revert s. induction t1 as [|e t1 IH]; intros s; cbn [app protocol];
    [reflexivity|].
  destruct (protocol_step w s e); [apply IH | reflexivity].
Qed.

Lemma obeys_weaken {A} (m : M A) st s (Q Q' : result A -> state -> pstate -> Prop) :
  obeys w m st s Q ->
  (forall r st' s', Q r st' s' -> Q' r st' s') ->
  obeys w m st s Q'.
Proof. intros (evs & s' & Hev & Hp & Hq) H. exists evs, s'. auto. Qed.

Lemma obeys_ret {A} (a : A) st s (Q : result A -> state -> pstate -> Prop) :
  Q (Ok a) st s -> obeys w (ret a) st s Q.
Proof.
  intros H. exists [], s. repeat split; [symmetry; apply app_nil_r | exact H].
Qed.

Lemma obeys_raise {A} (e : exn) st s
    (Q : result A -> state -> pstate -> Prop) :
  Q (Raise e) st s -> obeys w (raise e) st s Q.
Proof.
  intros H. exists [], s. repeat split; [symmetry; apply app_nil_r | exact H].
Qed.

Lemma obeys_bind {A B} (m : M A) (k : A -> M B) st s
    (Q1 : result A -> state -> pstate -> Prop)
    (Q2 : result B -> state -> pstate -> Prop) :
  obeys w m st s Q1 ->
  (forall a st1 s1, Q1 (Ok a) st1 s1 -> obeys w (k a) st1 s1 Q2) ->
  (forall e st1 s1, Q1 (Raise e) st1 s1 -> Q2 (Raise e) st1 s1) ->
  obeys w (bind m k) st s Q2.
Proof.
  intros (evs1 & s1 & Hev1 & Hp1 & Hq1) Hk He. unfold obeys, bind.
  destruct (m st) as [[a|e] st1]; cbn [fst snd] in *.
  - destruct (Hk a st1 s1 Hq1) as (evs2 & s2 & Hev2 & Hp2 & Hq2).
    exists (evs1 ++ evs2)%list, s2. split; [|split].
    + rewrite Hev2, Hev1. symmetry. apply app_assoc.
    + rewrite protocol_app, Hp1. exact Hp2.
    + exact Hq2.
  - exists evs1, s1. auto.
Qed.

Lemma obeys_emit_bind {B} (e : event) (k : unit -> M B) st s s2
    (Q : result B -> state -> pstate -> Prop) :
  protocol_step w s e = Some s2 ->
  obeys w (k tt) (snd (emit e st)) s2 Q ->
  obeys w (bind (emit e) k) st s Q.
Proof.
  intros Hs (evs & s' & Hev & Hp & Hq). unfold obeys, bind.
  cbn [emit fst snd events] in *.
  exists (e :: evs), s'. split; [|split].
  - rewrite Hev, <- app_assoc. reflexivity.
  - cbn [protocol]. rewrite Hs. exact Hp.
  - exact Hq.
Qed.

Lemma obeys_emit (e : event) st s s2
    (Q : result unit -> state -> pstate -> Prop) :
  protocol_step w s e = Some s2 ->
  Q (Ok tt) (snd (emit e st)) s2 ->
  obeys w (emit e) st s Q.
Proof.
  intros Hs Hq. exists [e], s2. cbn [protocol]. rewrite Hs. auto.
Qed.

Lemma obeys_try_catch {A} (handles : exn -> bool) (m : M A)
    (h : exn -> M A) st s
    (Q1 Q2 : result A -> state -> pstate -> Prop) :
  obeys w m st s Q1 ->
  (forall a st1 s1, Q1 (Ok a) st1 s1 -> Q2 (Ok a) st1 s1) ->
  (forall e st1 s1,
      Q1 (Raise e) st1 s1 ->
      if handles e then obeys w (h e) st1 s1 Q2 else Q2 (Raise e) st1 s1) ->
  obeys w (try_catch handles m h) st s Q2.
Proof.
  intros (evs1 & s1 & Hev1 & Hp1 & Hq1) Hok Hh. unfold obeys, try_catch.
  destruct (m st) as [[a|e] st1]; cbn [fst snd] in *.
  - exists evs1, s1. auto.
  - specialize (Hh e st1 s1 Hq1). destruct (handles e).
    + destruct Hh as (evs2 & s2 & Hev2 & Hp2 & Hq2).
      exists (evs1 ++ evs2)%list, s2. split; [|split].
      * rewrite Hev2, Hev1. symmetry. apply app_assoc.
      * rewrite protocol_app, Hp1. exact Hp2.
      * exact Hq2.
    + exists evs1, s1. auto.
Qed.

Lemma obeys_try_finally {A} (m : M A) (f : M unit) st s
    (Q1 Q2 : result A -> state -> pstate -> Prop) :
  obeys w m st s Q1 ->
  (forall r st1 s1,
      Q1 r st1 s1 ->
      obeys w f st1 s1
        (fun rf st2 s2 =>
           match rf with
           | Ok _ => Q2 r st2 s2
           | Raise e => Q2 (Raise e) st2 s2
           end)) ->
  obeys w (try_finally m f) st s Q2.
Proof.
  intros (evs1 & s1 & Hev1 & Hp1 & Hq1) Hf. unfold obeys, try_finally.
  destruct (m st) as [r st1]; cbn [fst snd] in *.
  destruct (Hf r st1 s1 Hq1) as (evs2 & s2 & Hev2 & Hp2 & Hq2).
  exists (evs1 ++ evs2)%list, s2.
  destruct (f st1) as [[u|e] st2]; cbn [fst snd] in *;
    (split; [|split];
     [ rewrite Hev2, Hev1; symmetry; apply app_assoc
     | rewrite protocol_app, Hp1; exact Hp2
     | exact Hq2 ]).
Qed.

Lemma obeys_cursor_execute sql params st :
  obeys w (cursor_execute w sql params) st InCursor (same st InCursor).
Proof.
  unfold obeys, cursor_execute, same. cbv zeta.
  exists [Execute sql params], InCursor.
  destruct (server w (executed (events st)) (sql, params));
    cbn [fst snd events dune_conn]; auto.
Qed.

Lemma obeys_input prompt st s : obeys w (input w prompt) st s (same st s).
Proof.
  unfold obeys, input, bind, emit, ret, raise, same.
  exists [Input prompt], s.
  destruct (stdin w); cbn [fst snd events dune_conn]; auto.
Qed.

End Protocol.

Lemma dune_conn_emit (e : event) (st : state) :
  dune_conn (snd (emit e st)) = dune_conn st.
Proof. reflexivity. Qed.

(** Steps over the logging and cursor calls at the head of a
    computation. *)
Ltac emit_steps :=
  cbv beta; unfold log, cursor_open;
  repeat (eapply obeys_emit_bind; [reflexivity|]).

(** Closes a goal about [same] reached after such steps. *)
Ltac same_done :=
  unfold same; rewrite ?dune_conn_emit; split; congruence.

(** Closes a goal [same st s r st' s'] from the facts at hand. *)
Ltac same_from_hyps :=
  unfold same in *;
  repeat match goal with
         | H : _ /\ _ |- _ => destruct H
         end;
  subst; rewrite ?dune_conn_emit in *; split; congruence.

Section ProtocolOfCalls.

Variable w : World.
Variable connection : Connection.

(** The query inside try/except/finally of a listing function, entered
    with the cursor open. *)
Lemma listing_block_obeys {A} (query : string) (params : list string)
    (build : list row -> A) (label : string) st0 st :
  dune_conn st = dune_conn st0 ->
  obeys w
    (try_finally
       (try_except
          (results <- cursor_execute w query params ;;
           ret (build results))
          (fun e => log ERROR (label ++ exn_str e) ;; raise e))
       cursor_close)
    st InCursor (same st0 Connected).
Proof.
  intros Hd.
  apply obeys_try_finally with (Q1 := same st0 InCursor).
  - unfold try_except.
    apply obeys_try_catch with (Q1 := same st0 InCursor).
    + eapply obeys_bind; [apply obeys_cursor_execute | |].
      * intros a st1 s1 H. apply obeys_ret. same_from_hyps.
      * intros e st1 s1 H. same_from_hyps.
    + auto.
    + intros e st1 s1 H. destruct (is_Exception e); [|exact H].
      emit_steps. apply obeys_raise. same_from_hyps.
  - intros r st1 s1 [-> H].
    apply obeys_emit with (s2 := Connected); [reflexivity|].
    same_from_hyps.
Qed.

Lemma list_specific_table_obeys (schema table_name catalog : string) st :
  obeys w (list_specific_table w connection schema table_name catalog) st
    Connected (same st Connected).
Proof.
  unfold list_specific_table, cursor_open, log. emit_steps.
  apply listing_block_obeys. reflexivity.
Qed.

Lemma list_tables_by_pattern_obeys (schema_pattern catalog : string) st :
  obeys w (list_tables_by_pattern w connection schema_pattern catalog) st
    Connected (same st Connected).
Proof.
  unfold list_tables_by_pattern, cursor_open, log. emit_steps.
  apply listing_block_obeys. reflexivity.
Qed.

Lemma list_tables_by_schema_obeys (schema catalog : string) st :
  obeys w (list_tables_by_schema w connection schema catalog) st
    Connected (same st Connected).
Proof.
  unfold list_tables_by_schema, cursor_open, log. emit_steps.
  apply listing_block_obeys. reflexivity.
Qed.

Lemma drop_table_or_view_obeys
    (schema table_name table_type catalog : string) (dry_run : bool) st :
  obeys w (drop_table_or_view w connection schema table_name table_type
             catalog dry_run) st Connected (same st Connected).
Proof.
  unfold drop_table_or_view.
  destruct (valid_identifiers catalog schema table_name) eqn:V.
  - rewrite (drop_statement_valid _ _ _ table_type V).
    unfold cursor_open, log.
    destruct dry_run.
    + emit_steps. apply obeys_ret. same_from_hyps.
    + emit_steps.
      apply obeys_try_finally with (Q1 := same st InCursor).
      * unfold try_except.
        apply obeys_try_catch with (Q1 := same st InCursor).
        -- eapply obeys_bind; [apply obeys_cursor_execute | |].
           ++ intros a st1 s1 H. destruct H as [-> H].
              emit_steps. apply obeys_ret. same_from_hyps.
           ++ intros e st1 s1 H. same_from_hyps.
        -- auto.
        -- intros e st1 s1 H. destruct (is_Exception e); [|exact H].
           destruct H as [-> H].
           emit_steps. apply obeys_ret. same_from_hyps.
      * intros r st1 s1 [-> H].
        apply obeys_emit with (s2 := Connected); [reflexivity|].
        same_from_hyps.
  - destruct (drop_statement_invalid _ _ _ table_type V) as [msg ->].
    unfold log. emit_steps. apply obeys_ret. same_from_hyps.
Qed.

Lemma drop_loop_obeys (catalog : string) (dry_run : bool)
    (tables : list table) :
  forall sc fc st st0,
    dune_conn st = dune_conn st0 ->
    obeys w (drop_loop w connection tables catalog dry_run sc fc) st
      Connected (same st0 Connected).
Proof.
  induction tables as [|t rest IH]; intros sc fc st st0 Hd;
    cbn [drop_loop].
  - apply obeys_ret. same_from_hyps.
  - eapply obeys_bind; [apply drop_table_or_view_obeys | |].
    + intros ok st1 s1 [-> H].
      destruct ok; apply IH; congruence.
    + intros e st1 s1 H. same_from_hyps.
Qed.

Lemma drop_tables_obeys (tables : list table) (catalog : string)
    (dry_run : bool) st :
  obeys w (drop_tables w connection tables catalog dry_run) st Connected
    (same st Connected).
Proof.
  unfold drop_tables, log. destruct tables as [|t0 rest].
  - emit_steps. apply obeys_ret. same_from_hyps.
  - emit_steps.
    eapply obeys_bind;
      [apply drop_loop_obeys with (st0 := st); reflexivity | |].
    + intros [sc fc] st1 s1 [-> H].
      emit_steps. apply obeys_ret. same_from_hyps.
    + intros e st1 s1 H. exact H.
Qed.

End ProtocolOfCalls.

Section ProtocolOfMain.

Variable w : World.

Lemma obeys_set_bind {B} (c : option DuneTrinoConnection) (k : unit -> M B)
    st s (Q : result B -> state -> pstate -> Prop) :
  obeys w (k tt) (snd (set_dune_conn c st)) s Q ->
  obeys w (bind (set_dune_conn c) k) st s Q.
Proof.
  intros (evs & s' & Hev & Hp & Hq). exists evs, s'.
  unfold bind. cbn [set_dune_conn fst snd events] in *. auto.
Qed.

Lemma obeys_get_bind {B} (k : option DuneTrinoConnection -> M B) st s
    (Q : result B -> state -> pstate -> Prop) :
  obeys w (k (dune_conn st)) st s Q ->
  obeys w (bind get_dune_conn k) st s Q.
Proof. intros H. exact H. Qed.

Lemma preview_loop_obeys (tables : list table) :
  forall i st st0 s,
    dune_conn st = dune_conn st0 ->
    obeys w (preview_loop i tables) st s (same st0 s).
Proof.
  induction tables as [|t rest IH]; intros i st st0 s Hd;
    cbn [preview_loop].
  - apply obeys_ret. same_from_hyps.
  - emit_steps. apply IH. rewrite dune_conn_emit. exact Hd.
Qed.

Lemma confirm_production_obeys (tables : list table)
    (schema_or_pattern : string) st s :
  obeys w (confirm_production w tables schema_or_pattern) st s (same st s).
Proof.
  unfold confirm_production. cbv zeta. emit_steps.
  eapply obeys_bind;
    [apply preview_loop_obeys with (st0 := st);
     rewrite !dune_conn_emit; reflexivity | |].
  2:{ intros e st1 s1 H. exact H. }
  intros [] st1 s1 [-> H1].
  eapply obeys_bind with (Q1 := same st s).
  - destruct (_ <? _)%nat.
    + apply obeys_emit with (s2 := s); [reflexivity | same_from_hyps].
    + apply obeys_ret. same_from_hyps.
  - intros [] st2 s2 [-> H2]. emit_steps.
    apply obeys_try_catch with (Q1 := same st s).
    + eapply obeys_bind; [apply obeys_input | |].
      * intros line st3 s3 [-> H3]. cbv zeta.
        destruct (negb _); emit_steps; apply obeys_ret; same_from_hyps.
      * intros e st3 s3 H3. same_from_hyps.
    + auto.
    + intros e st3 s3 [-> H3].
      destruct e; try (split; [reflexivity | exact H3]);
        emit_steps; apply obeys_ret; same_from_hyps.
  - intros e st2 s2 H2. exact H2.
Qed.

Lemma drop_listed_obeys (connection : Connection) (is_prod dry_run : bool)
    (schema_or_pattern : string) (tables : list table) st0 st :
  dune_conn st = dune_conn st0 ->
  obeys w (drop_listed w connection is_prod dry_run schema_or_pattern tables)
    st Connected (same st0 Connected).
Proof.
  intros Hd. unfold drop_listed.
  eapply obeys_bind with (Q1 := same st0 Connected).
  - destruct (is_prod && negb dry_run && negb (length tables =? 0)%nat).
    + eapply obeys_weaken; [apply confirm_production_obeys|].
      intros r st1 s1 H. same_from_hyps.
    + apply obeys_ret. same_from_hyps.
  - intros [code|] st1 s1 [-> H1].
    + apply obeys_ret. same_from_hyps.
    + eapply obeys_bind; [apply drop_tables_obeys | |].
      * intros sm st2 s2 [-> H2].
        eapply obeys_bind with (Q1 := same st0 Connected).
        -- destruct dry_run.
           ++ emit_steps.
              apply obeys_emit with (s2 := Connected);
                [reflexivity | same_from_hyps].
           ++ apply obeys_ret. same_from_hyps.
        -- intros [] st3 s3 H3. apply obeys_ret. exact H3.
        -- intros e st3 s3 H3. exact H3.
      * intros e st2 s2 H2. same_from_hyps.
  - intros e st1 s1 H1. exact H1.
Qed.

Lemma DuneTrinoConnection_init_obeys (api_key : option string) st s :
  obeys w (DuneTrinoConnection_init w api_key) st s
    (fun r st' s' =>
       s' = s /\ dune_conn st' = dune_conn st
       /\ forall self, r = Ok self -> self_connection self = None).
Proof.
  unfold DuneTrinoConnection_init. cbv zeta.
  destruct (negb (truthy (or_else api_key (getenv w "DUNE_API_KEY")))).
  - apply obeys_raise. repeat split. discriminate.
  - emit_steps. apply obeys_ret. repeat split.
    intros self [= <-]. reflexivity.
Qed.

Lemma connect_obeys (self : DuneTrinoConnection) st :
  obeys w (connect w self) st Idle
    (fun r st' s' =>
       match r with
       | Ok _ => s' = Connected /\ holds_connection st' = true
       | Raise _ => s' = Idle /\ dune_conn st' = dune_conn st
       end).
Proof.
  unfold connect. emit_steps.
  destruct (dbapi_connect w (self_api_key self)) as [msg|] eqn:D.
  - eapply obeys_emit_bind;
      [cbn [protocol_step]; rewrite D; reflexivity|].
    apply obeys_raise. split; reflexivity.
  - eapply obeys_emit_bind;
      [cbn [protocol_step]; rewrite D; reflexivity|].
    apply obeys_set_bind. emit_steps. apply obeys_ret.
    split; reflexivity.
Qed.

Lemma main_finally_obeys st s :
  in_step st s ->
  obeys w (c <- get_dune_conn ;;
           match c with
           | Some self => close self
           | None => ret tt
           end) st s
    (fun r _ s' => r = Ok tt /\ (s' = Idle \/ s' = Closed)).
Proof.
  intros Hin. apply obeys_get_bind.
  unfold in_step, holds_connection in Hin.
  destruct (dune_conn st) as [self|].
  - unfold close. destruct (self_connection self).
    + destruct Hin as [[-> _] | [_ H]]; [|discriminate].
      emit_steps.
      apply obeys_emit with (s2 := Closed); [reflexivity | auto].
    + destruct Hin as [[_ H] | [-> _]]; [discriminate|].
      apply obeys_ret. auto.
  - destruct Hin as [[_ H] | [-> _]]; [discriminate|].
    apply obeys_ret. auto.
Qed.

Lemma main_try_obeys (args : Args) (is_prod dry_run : bool)
    (schema_or_pattern : string) (use_pattern : bool) st :
  holds_connection st = false ->
  obeys w (main_try w args is_prod dry_run schema_or_pattern use_pattern)
    st Idle (fun _ st' s' => in_step st' s').
Proof.
  intros Hno. unfold main_try.
  eapply obeys_bind; [apply DuneTrinoConnection_init_obeys | |].
  2:{ intros e st1 s1 (-> & H & _). right. split; [reflexivity|].
      unfold holds_connection in *. rewrite H. exact Hno. }
  intros self st1 s1 (-> & H1 & Hself).
  specialize (Hself self eq_refl).
  apply obeys_set_bind.
  eapply obeys_bind; [apply connect_obeys | |].
  2:{ intros e st2 s2 [-> H2]. right. split; [reflexivity|].
      unfold holds_connection. rewrite H2. cbn [set_dune_conn snd dune_conn].
      rewrite Hself. reflexivity. }
  intros connection st2 s2 [-> H2].
  assert (Hstep : forall r st3 s3,
             same st2 Connected (A := Z) r st3 s3 -> in_step st3 s3).
  { intros r st3 s3 [-> H3]. left. split; [reflexivity|].
    unfold holds_connection in *. rewrite H3. exact H2. }
  assert (Hstep' : forall e st3 s3,
             same st2 Connected (A := list table) (Raise e) st3 s3 ->
             in_step st3 s3).
  { intros e st3 s3 [-> H3]. left. split; [reflexivity|].
    unfold holds_connection in *. rewrite H3. exact H2. }
  destruct (truthy (args_table args)); [|destruct use_pattern].
  - eapply obeys_bind; [apply list_specific_table_obeys | | exact Hstep'].
    intros [|t0 rest] st3 s3 [-> H3].
    + emit_steps. apply obeys_ret. left. split; [reflexivity|].
      unfold holds_connection in *. rewrite dune_conn_emit, H3. exact H2.
    + eapply obeys_weaken;
        [apply drop_listed_obeys with (st0 := st2); exact H3 | exact Hstep].
  - eapply obeys_bind; [apply list_tables_by_pattern_obeys | | exact Hstep'].
    intros tables st3 s3 [-> H3].
    eapply obeys_weaken;
      [apply drop_listed_obeys with (st0 := st2); exact H3 | exact Hstep].
  - eapply obeys_bind; [apply list_tables_by_schema_obeys | | exact Hstep'].
    intros tables st3 s3 [-> H3].
    eapply obeys_weaken;
      [apply drop_listed_obeys with (st0 := st2); exact H3 | exact Hstep].
Qed.

End ProtocolOfMain.

Lemma in_step_emit (e : event) (st : state) (s : pstate) :
  in_step st s -> in_step (snd (emit e st)) s.
Proof. intros H. exact H. Qed.

Lemma main_obeys (w : World) (args : Args) st :
  obeys w (main w args) st Idle (fun _ _ s' => s' = Idle \/ s' = Closed).
Proof.
  unfold main. cbv zeta.
  eapply obeys_bind with (Q1 := same st Idle).
  - destruct (args_verbose args).
    + emit_steps. apply obeys_emit with (s2 := Idle);
        [reflexivity | same_from_hyps].
    + apply obeys_ret. same_from_hyps.
  - intros [] st1 s1 [-> _].
    destruct (args_target args), (truthy (args_schema args)),
      (truthy (args_table args));
      cbn [negb andb orb];
      try solve [emit_steps; apply obeys_ret; left; reflexivity];
      (eapply obeys_bind with (Q1 := same st1 Idle);
       [ destruct (negb (args_execute args));
         [ emit_steps; apply obeys_emit with (s2 := Idle);
           [reflexivity | same_from_hyps]
         | apply obeys_ret; same_from_hyps ]
       | intros [] st2 s2 [-> _]; emit_steps; apply obeys_set_bind;
         apply obeys_try_finally with (Q1 := fun _ st' s' => in_step st' s');
         [ unfold try_except;
           apply obeys_try_catch with (Q1 := fun _ st' s' => in_step st' s');
           [ apply main_try_obeys; reflexivity
           | auto
           | intros e st3 s3 H; destruct (is_Exception e); [|exact H];
             emit_steps; apply obeys_ret; exact H ]
         | intros r st3 s3 H;
           eapply obeys_weaken; [apply main_finally_obeys; exact H|];
           intros rf st4 s4 [-> H']; exact H' ]
       | intros e st2 s2 [-> _]; left; reflexivity ]).
  - intros e st1 s1 [-> _]. left. reflexivity.
Qed.

(** X15.  Every run of [main] uses the driver in order: it connects at
    most once; a cursor is opened only on the open connection and one at
    a time; statements are executed only on an open cursor; every cursor
    is closed again; and at the end either no connection was ever opened
    or the one opened has been closed, after everything else.  This holds
    on every exit, the failures of the driver included. *)
Theorem main_closes_what_it_opens :
  forall w args,
  exists s,
    protocol w Idle (trace_of (run_main w args)) = Some s
    /\ (s = Idle \/ s = Closed).
Proof.
  intros w args.
  destruct (main_obeys w args initial) as (evs & s & Hev & Hp & Hq).
  exists s. unfold trace_of, run_main. rewrite Hev. auto.
Qed.

(** X16.  Each of the three listing functions, [drop_table_or_view] and
    [drop_tables], called on an open connection with no cursor open,
    opens at most one cursor at a time, executes on an open cursor only,
    and has closed every cursor it opened when it returns or raises; it
    never closes the connection. *)
Theorem callees_hand_back_the_connection :
  forall w connection,
    (forall schema table_name catalog,
        hands_back w (list_specific_table w connection schema table_name
                        catalog))
    /\ (forall schema_pattern catalog,
           hands_back w (list_tables_by_pattern w connection schema_pattern
                           catalog))
    /\ (forall schema catalog,
           hands_back w (list_tables_by_schema w connection schema catalog))
    /\ (forall schema table_name table_type catalog dry_run,
           hands_back w (drop_table_or_view w connection schema table_name
                           table_type catalog dry_run))
    /\ (forall tables catalog dry_run,
           hands_back w (drop_tables w connection tables catalog dry_run)).
Proof.
  intros w connection.
  assert (H : forall A (m : M A),
             (forall st, obeys w m st Connected (same st Connected)) ->
             hands_back w m).
  { intros A m Hm st. destruct (Hm st) as (evs & s & Hev & Hp & [-> _]).
    exists evs. auto. }
  repeat split; intros; apply H; intros st.
  - apply list_specific_table_obeys.
  - apply list_tables_by_pattern_obeys.
  - apply list_tables_by_schema_obeys.
  - apply drop_table_or_view_obeys.
  - apply drop_tables_obeys.
Qed.

(** ** Flags that change nothing, and bounds *)

(** The summary of a run does not read [--verbose]. *)
Lemma behaviour_ignores_verbose (w : World) (args : Args) (v : bool)
    (hist : list statement) :
  behaviour w
    {| args_target := args_target args; args_schema := args_schema args;
       args_table := args_table args; args_execute := args_execute args;
       args_api_key := args_api_key args; args_verbose := v |} hist
  = behaviour w args hist.
Proof. reflexivity. Qed.

(** X17.  [--verbose] changes the logging level and nothing else: with
    or without it a run has the same exit code, sends the same
    statements, shows the same prompts and connects as often. *)
Theorem verbose_only_changes_logging :
  forall w args v,
    let args' :=
      {| args_target := args_target args; args_schema := args_schema args;
         args_table := args_table args; args_execute := args_execute args;
         args_api_key := args_api_key args; args_verbose := v |} in
    value (run_main w args') = value (run_main w args)
    /\ executed (trace_of (run_main w args'))
       = executed (trace_of (run_main w args))
    /\ prompts (trace_of (run_main w args'))
       = prompts (trace_of (run_main w args))
    /\ connects (trace_of (run_main w args'))
       = connects (trace_of (run_main w args)).
Proof.
  intros w args v args'.
  destruct (run_main_behaviour w args) as (-> & -> & -> & ->).
  destruct (run_main_behaviour w args') as (-> & -> & -> & ->).
  subst args'. rewrite behaviour_ignores_verbose. auto.
Qed.

(** X18.  With a non-empty [--schema] and [--table] the listing is the
    query for that one table, with the schema and the table compared by
    equality in the catalog [dune]. *)
Theorem table_is_listed_by_equality :
  forall w args schema table_name stmt rest,
    args_schema args = Some schema ->
    args_table args = Some table_name ->
    table_name <> "" ->
    executed (trace_of (run_main w args)) = stmt :: rest ->
    stmt = (query_specific_table, ["dune"; schema; table_name]).
Proof.
  intros w args schema table_name stmt rest Hs Ht Hne E.
  destruct (first_statement_is_listing w args E) as [_ ->].
  unfold listing. rewrite Hs, Ht.
  destruct table_name; [contradiction Hne; reflexivity | reflexivity].
Qed.

(** X19.  A run connects at most once and asks at most once. *)
Theorem at_most_one_connection_and_prompt :
  forall w args,
    connects (trace_of (run_main w args)) <= 1
    /\ length (prompts (trace_of (run_main w args))) <= 1.
Proof.
  intros w args.
  destruct (run_main_behaviour w args) as (_ & _ & -> & ->).
  unfold behaviour, try_behaviour, after_listing.
  destruct (rejected args); [cbn; lia|].
  destruct (negb (truthy (api_key_used w args))); [cbn; lia|].
  destruct (dbapi_connect w _); [cbn; lia|].
  destruct (server w [] (listing w args)); [cbn; lia|].
  destruct (is_prod_target args && _ && _); [destruct (confirmed w)|];
    cbn; lia.
Qed.

(** ** The listing functions *)

Lemma listing_outcome {A} (m : M A) st (r : result A) (stmt : statement) :
  runs m st r ([stmt], [], 0) ->
  value (m st) = r
  /\ executed (trace_of (m st)) = (executed (events st) ++ [stmt])%list.
Proof.
  intros (evs & st' & E & Hev & O). unfold value, trace_of. rewrite E.
  cbn [fst snd]. split; [reflexivity|].
  rewrite Hev, executed_app. unfold observe in O.
  injection O as -> _ _. reflexivity.
Qed.

(** X20.  Each listing function sends one statement, its query with the
    catalog first among the parameters.  When the server answers with
    rows it returns one dict per row, in the order of the rows; when
    [cursor.execute] raises, the exception is raised again to the
    caller. *)
Theorem listing_functions_return_rows_or_reraise :
  forall w connection st,
    (forall schema table_name catalog,
        let stmt := (query_specific_table, [catalog; schema; table_name]) in
        let r := list_specific_table w connection schema table_name catalog
                   st in
        executed (trace_of r) = (executed (events st) ++ [stmt])%list
        /\ value r
           = match server w (executed (events st)) stmt with
             | inl msg => Raise (DriverError msg)
             | inr rows => Ok (tables_of_rows rows)
             end)
    /\ (forall schema_pattern catalog,
           let stmt := (query_by_pattern, [catalog; schema_pattern]) in
           let r := list_tables_by_pattern w connection schema_pattern
                      catalog st in
           executed (trace_of r) = (executed (events st) ++ [stmt])%list
           /\ value r
              = match server w (executed (events st)) stmt with
                | inl msg => Raise (DriverError msg)
                | inr rows => Ok (tables_of_rows rows)
                end)
    /\ (forall schema catalog,
           let stmt := (query_by_schema, [catalog; schema]) in
           let r := list_tables_by_schema w connection schema catalog st in
           executed (trace_of r) = (executed (events st) ++ [stmt])%list
           /\ value r
              = match server w (executed (events st)) stmt with
                | inl msg => Raise (DriverError msg)
                | inr rows => Ok (tables_of_rows rows)
                end).
Proof.
  intros w connection st. repeat split.
  - apply (listing_outcome (list_specific_table_runs w connection schema
                              table_name catalog st)).
  - apply (listing_outcome (list_specific_table_runs w connection schema
                              table_name catalog st)).
  - apply (listing_outcome (list_tables_by_pattern_runs w connection
                              schema_pattern catalog st)).
  - apply (listing_outcome (list_tables_by_pattern_runs w connection
                              schema_pattern catalog st)).
  - apply (listing_outcome (list_tables_by_schema_runs w connection schema
                              catalog st)).
  - apply (listing_outcome (list_tables_by_schema_runs w connection schema
                              catalog st)).
Qed.


(** * The further properties on concrete runs *)

Section MoreConcreteRuns.

Import Examples Scenarios.

Lemma missing_api_key_exits_before_connecting_witness :
  value (run_main world_without_key dev_default) = Ok 1%Z
  /\ connects (trace_of (run_main world_without_key dev_default)) = 0
  /\ executed (trace_of (run_main world_without_key dev_default)) = []
  /\ prompts (trace_of (run_main world_without_key dev_default)) = [].
Proof.
  apply (@missing_api_key_exits_before_connecting world_without_key
           dev_default); vm_compute; reflexivity.
Defined.

Lemma connection_failure_exits_witness :
  dbapi_connect world_refusing "secret" = Some "connection refused"
  /\ value (run_main world_refusing dev_default) = Ok 1%Z
  /\ connects (trace_of (run_main world_refusing dev_default)) = 1
  /\ executed (trace_of (run_main world_refusing dev_default)) = []
  /\ prompts (trace_of (run_main world_refusing dev_default)) = [].
Proof.
  split; [reflexivity|].
  apply (@connection_failure_exits world_refusing dev_default
           "connection refused"); vm_compute; reflexivity.
Defined.

Lemma listing_failure_exits_witness :
  value (run_main world_failing dev_default) = Ok 1%Z
  /\ executed (trace_of (run_main world_failing dev_default))
     = [listing world_failing dev_default]
  /\ prompts (trace_of (run_main world_failing dev_default)) = [].
Proof.
  apply (@listing_failure_exits world_failing dev_default "query failed");
    vm_compute; reflexivity.
Defined.


Lemma main_drops_only_listed_tables_witness :
  In ("drop table if exists " ++ quoted "dune" ++ "." ++ quoted "dune__tmp_a"
        ++ "." ++ quoted "orders", [])
     (executed (trace_of (run_main (world [tmp_orders] Eof) dev_execute)))
  /\ exists rows t,
      server (world [tmp_orders] Eof) []
        (listing (world [tmp_orders] Eof) dev_execute) = inr rows
      /\ In t (tables_of_rows rows)
      /\ drop_statement "dune" (t_schema t) (t_name t) (t_type t)
         = Ok ("drop table if exists " ++ quoted "dune" ++ "."
                 ++ quoted "dune__tmp_a" ++ "." ++ quoted "orders").
Proof.
  assert (H : In ("drop table if exists " ++ quoted "dune" ++ "."
                    ++ quoted "dune__tmp_a" ++ "." ++ quoted "orders", [])
                 (executed (trace_of (run_main (world [tmp_orders] Eof)
                                        dev_execute))))
    by (vm_compute; right; left; reflexivity).
  split; [exact H|].
  destruct (@main_drops_only_listed_tables (world [tmp_orders] Eof)
              dev_execute _ H) as [E | (_ & rows & t & S & Ht & Hd & _)].
  - discriminate E.
  - exists rows, t. split; [exact S | split; [exact Ht | exact Hd]].
Defined.

Lemma metadata_query_text_is_fixed_witness :
  executed (trace_of (run_main (world [tmp_orders] Eof) dev_default))
  = [(query_by_pattern, ["dune"; "dune__tmp_%"])]
  /\ (query_by_pattern = query_specific_table
      \/ query_by_pattern = query_by_pattern).
Proof.
  assert (E : executed (trace_of (run_main (world [tmp_orders] Eof)
                                    dev_default))
              = [(query_by_pattern, ["dune"; "dune__tmp_%"])])
    by (vm_compute; reflexivity).
  split; [exact E|].
  exact (proj2 (@metadata_query_text_is_fixed (world [tmp_orders] Eof)
                  dev_default _ _ E)).
Defined.

Lemma dev_default_lists_tmp_schemas_witness :
  executed (trace_of (run_main (world_of_team []) dev_default))
  = [(query_by_pattern, ["dune"; "acme__tmp_%"])]
  /\ (query_by_pattern, ["dune"; "acme__tmp_%"])
     = (query_by_pattern,
        ["dune";
         match getenv (world_of_team []) "DUNE_TEAM_NAME" with
         | Some team => team
         | None => "dune"
         end ++ "__tmp_%"]).
Proof.
  assert (E : executed (trace_of (run_main (world_of_team []) dev_default))
              = [(query_by_pattern, ["dune"; "acme__tmp_%"])])
    by (vm_compute; reflexivity).
  split; [exact E|].
  apply (@dev_default_lists_tmp_schemas (world_of_team []) dev_default _ []);
    [reflexivity | reflexivity | reflexivity | exact E].
Defined.

Lemma schema_alone_is_a_like_pattern_witness :
  args_schema dev_schema_execute = Some "dune__tmp_a"
  /\ executed (trace_of (run_main (world [] Eof) dev_schema_execute))
     = [(query_by_pattern, ["dune"; "dune__tmp_a"])]
  /\ (query_by_pattern, ["dune"; "dune__tmp_a"])
     = (query_by_pattern, ["dune"; "dune__tmp_a"]).
Proof.
  assert (E : executed (trace_of (run_main (world [] Eof)
                                    dev_schema_execute))
              = [(query_by_pattern, ["dune"; "dune__tmp_a"])])
    by (vm_compute; reflexivity).
  split; [reflexivity|]. split; [exact E|].
  apply (@schema_alone_is_a_like_pattern (world [] Eof) dev_schema_execute
           "dune__tmp_a" _ []);
    [reflexivity | discriminate | reflexivity | exact E].
Defined.


Lemma drop_statement_names_one_table_witness :
  drop_statement "dune" "dune" "orders" "BASE TABLE"
  = drop_statement "dune" "dune" "orders" "MANAGED"
  /\ ("BASE TABLE" =? "VIEW") = ("MANAGED" =? "VIEW").
Proof.
  split; [vm_compute; reflexivity|].
  apply (@drop_statement_names_one_table "dune" "dune" "orders" "BASE TABLE"
           "dune" "dune" "orders" "MANAGED"); vm_compute; reflexivity.
Defined.

Lemma summary_all_success_when_server_accepts_witness :
  value (drop_tables (world [] Eof) connection [good_table; good_table]
           "dune" false initial)
  = Ok {| total := 2; success := 2; failed := 0 |}.
Proof.
  apply (@summary_all_success_when_server_accepts (world [] Eof) connection
           [good_table; good_table] "dune" false initial).
  - intros t [<- | [<- | []]]; vm_compute; reflexivity.
  - intros [|h hist] stmt; eexists; reflexivity.
Defined.

Lemma driver_error_is_caught_witness :
  server world_failing [] drop_orders = inl "query failed"
  /\ value (drop_table_or_view world_failing connection "dune" "orders"
              "BASE TABLE" "dune" false initial) = Ok false
  /\ executed (trace_of (drop_table_or_view world_failing connection "dune"
                           "orders" "BASE TABLE" "dune" false initial))
     = [drop_orders].
Proof.
  split; [vm_compute; reflexivity|].
  apply (@driver_error_is_caught world_failing connection "dune" "orders"
           "BASE TABLE" "dune" initial (fst drop_orders) "query failed");
    vm_compute; reflexivity.
Defined.

Lemma table_is_listed_by_equality_witness :
  args_schema prod_execute = Some "dune"
  /\ args_table prod_execute = Some "orders"
  /\ executed (trace_of (run_main (world [] Eof) prod_execute))
     = [(query_specific_table, ["dune"; "dune"; "orders"])]
  /\ (query_specific_table, ["dune"; "dune"; "orders"])
     = (query_specific_table, ["dune"; "dune"; "orders"]).
Proof.
  assert (E : executed (trace_of (run_main (world [] Eof) prod_execute))
              = [(query_specific_table, ["dune"; "dune"; "orders"])])
    by (vm_compute; reflexivity).
  split; [reflexivity|]. split; [reflexivity|]. split; [exact E|].
  apply (@table_is_listed_by_equality (world [] Eof) prod_execute "dune"
           "orders" _ []);
    [reflexivity | reflexivity | discriminate | exact E].
Defined.

(** A run that connects ends with the connection closed; one that is
    turned down never had one. *)
Example protocol_of_two_runs :
  protocol (world [orders] (Line "yes")) Idle
    (trace_of (run_main (world [orders] (Line "yes")) prod_execute))
  = Some Closed
  /\ protocol (world [orders] Eof) Idle
       (trace_of (run_main (world [orders] Eof) prod_no_schema))
     = Some Idle.
Proof. split; vm_compute; reflexivity. Qed.

End MoreConcreteRuns.
